(** * YansErrorRateModel: chunk success rate of coded OFDM transmissions

    A shallow embedding of [yans-error-rate-model.cc] (ns-3, module wifi)
    and the properties of it that the specification states.

    Modelling conventions.
    - [uint32_t], [unsigned int] and [uint64_t] values are integers of [Z];
      every 32-bit operation that can wrap is written with [wrap32].
    - [double] is modelled by the real numbers [R]: the arithmetic is exact,
      so rounding, infinities and NaN are outside the model.  The model
      follows the C++ on the inputs the specification calls valid
      (non-negative SNR, positive channel width and PHY rate).
    - [erfc] of libm is a parameter ([Libm]); what is used of it is stated
      in [LibmSpec].  [log2] is [ln x / ln 2], [std::sqrt] is [sqrt],
      [std::pow] with a non-negative integer exponent is [pow].
    - An unsigned division by zero (undefined behaviour) and a failed
      [NS_ASSERT] end the computation: functions that can reach one return
      [option R], [None] being the aborted call.
    - [WifiMode], [WifiTxVector] and the constants of [wifi-phy-common.h]
      are declared outside the translated file; they are the interface
      [WifiPhyEnv]. *)

From Stdlib Require Import ZArith Reals Lia Lra Bool List.
Import ListNotations.

Open Scope Z_scope.

(** ** Machine integers *)

Definition wrap32 (x : Z) : Z := x mod 2 ^ 32.

Definition is_uint32 (x : Z) : Prop := 0 <= x < 2 ^ 32.

(** ** Aborting computations *)

Definition bind {A B : Type} (c : option A) (f : A -> option B) : option B :=
  match c with
  | Some a => f a
  | None => None
  end.

Notation "x <- c ;; k" := (bind c (fun x => k))
  (at level 61, c at next level, right associativity).

(** ** External collaborators *)

(** [erfc] of the C math library. *)
Class Libm : Type := { erfc : R -> R }.

(** On a non-negative argument [erfc] yields a value of [[0,1]].  Nothing
    says that the value is positive: in double precision [erfc] underflows
    to exactly [0] on large arguments. *)
Class LibmSpec {libm : Libm} : Prop :=
  { erfc_range : forall z : R, (0 <= z)%R -> (0 <= erfc z <= 1)%R }.

(** Modelled from the spec: the enumeration [WifiCodeRate] of
    [wifi-phy-common.h] is not part of the translated sources; the data model
    lists the ratios 1/2, 2/3, 3/4 and 5/6. *)
Inductive WifiCodeRate : Type :=
  | WIFI_CODE_RATE_1_2
  | WIFI_CODE_RATE_2_3
  | WIFI_CODE_RATE_3_4
  | WIFI_CODE_RATE_5_6.

Definition WifiCodeRate_eqb (a b : WifiCodeRate) : bool :=
  match a, b with
  | WIFI_CODE_RATE_1_2, WIFI_CODE_RATE_1_2
  | WIFI_CODE_RATE_2_3, WIFI_CODE_RATE_2_3
  | WIFI_CODE_RATE_3_4, WIFI_CODE_RATE_3_4
  | WIFI_CODE_RATE_5_6, WIFI_CODE_RATE_5_6 => true
  | _, _ => false
  end.

(** What [DoGetChunkSuccessRate] reads of a mode and of a TXVECTOR.
    [GetPhyRate] is [WifiMode::GetPhyRate(MHz_u)], [GetPhyRateTx] is
    [WifiMode::GetPhyRate(const WifiTxVector&, uint16_t)], [WifiMode_neq] is
    [operator!=] on modes; modulation classes are the numeric values of
    their enumeration. *)
Class WifiPhyEnv : Type :=
  { WifiMode : Type;
    WifiTxVector : Type;
    WifiPpduField : Type;
    WIFI_MOD_CLASS_ERP_OFDM : Z;
    SU_STA_ID : Z;
    GetModulationClass : WifiMode -> Z;
    GetConstellationSize : WifiMode -> Z;
    GetCodeRate : WifiMode -> WifiCodeRate;
    GetPhyRate : WifiMode -> R -> Z;
    GetPhyRateTx : WifiMode -> WifiTxVector -> Z -> Z;
    WifiMode_neq : WifiMode -> WifiMode -> bool;
    IsMu : WifiTxVector -> bool;
    GetMode : WifiTxVector -> Z -> WifiMode;
    GetChannelWidth : WifiTxVector -> R }.

(** ** The error rate model *)

Section YansErrorRateModel.

Context {libm : Libm}.

Definition log2 (x : R) : R := (ln x / ln 2)%R.

(** The model follows the C++ for [0 <= snr], [0 < signalSpread] and
    [0 < phyRate].  Outside, [EbNo] is negative, infinite or [0/0] and the
    C++ yields NaN or an infinity, which the reals do not have: [sqrt] of a
    negative real and a division by [0] are [0] here. *)
Definition GetBpskBer (snr signalSpread : R) (phyRate : Z) : R :=
  let EbNo := (snr * signalSpread * 1e6 / IZR phyRate)%R in
  let z := sqrt EbNo in
  let ber := (0.5 * erfc z)%R in
  ber.

(** As [GetBpskBer]: faithful for [0 <= snr], [0 < signalSpread],
    [0 < phyRate], and [2 <= m]. *)
Definition GetQamBer (snr : R) (m : Z) (signalSpread : R) (phyRate : Z) : R :=
  let EbNo := (snr * signalSpread * 1e6 / IZR phyRate)%R in
  let z := sqrt ((1.5 * log2 (IZR m) * EbNo) / (IZR m - 1.0))%R in
  let z1 := ((1.0 - 1.0 / sqrt (IZR m)) * erfc z)%R in
  let z2 := (1 - (1 - z1) ^ 2)%R in
  let ber := (z2 / log2 (IZR m))%R in
  ber.

(** The [while (k > 0)] loop of [Factorial]; it runs [k] times. *)
Fixpoint Factorial_loop (fuel : nat) (fact k : Z) : Z :=
  match fuel with
  | O => fact
  | S fuel' =>
      if 0 <? k then Factorial_loop fuel' (wrap32 (fact * k)) (k - 1)
      else fact
  end.

Definition Factorial (k : Z) : Z := Factorial_loop (Z.to_nat k) 1 k.

Definition Binomial (k : Z) (p : R) (n : Z) : option R :=
  let divisor := wrap32 (Factorial k * Factorial (wrap32 (n - k))) in
  if divisor =? 0 then None
  else
    Some (IZR (Factorial n / divisor)
          * p ^ Z.to_nat k
          * (1 - p) ^ Z.to_nat (wrap32 (n - k)))%R.

(** [for (i = dstart; i < dend; i++) pd += Binomial(i, ber, d);]
    The fuel bounds the number of iterations; running out of it is
    reported as [None]. *)
Fixpoint CalculatePd_loop (fuel : nat) (ber : R) (d i dend : Z) (pd : R)
  : option R :=
  if i <? dend then
    match fuel with
    | O => None
    | S fuel' =>
        b <- Binomial i ber d ;;
        CalculatePd_loop fuel' ber d (wrap32 (i + 1)) dend (pd + b)%R
    end
  else Some pd.

Definition CalculatePdOdd (ber : R) (d : Z) : option R :=
  if negb (d mod 2 =? 1) then None
  else
    let dstart := wrap32 (d + 1) / 2 in
    let dend := d in
    CalculatePd_loop (Z.to_nat (dend - dstart)) ber d dstart dend 0%R.

Definition CalculatePdEven (ber : R) (d : Z) : option R :=
  if negb (d mod 2 =? 0) then None
  else
    let dstart := wrap32 (d / 2 + 1) in
    let dend := d in
    pd <- CalculatePd_loop (Z.to_nat (dend - dstart)) ber d dstart dend 0%R ;;
    b <- Binomial (d / 2) ber d ;;
    Some (pd + 0.5 * b)%R.

Definition CalculatePd (ber : R) (d : Z) : option R :=
  if d mod 2 =? 0 then CalculatePdEven ber d else CalculatePdOdd ber d.

Definition GetFecBpskBer (snr : R) (nbits : Z) (signalSpread : R)
    (phyRate dFree adFree : Z) : option R :=
  let ber := GetBpskBer snr signalSpread phyRate in
  if Req_dec_T ber 0 then Some 1%R
  else
    pd <- CalculatePd ber dFree ;;
    let pmu := (IZR adFree * pd)%R in
    let pmu := Rmin pmu 1 in
    let pms := ((1 - pmu) ^ Z.to_nat nbits)%R in
    Some pms.

Definition GetFecQamBer (snr : R) (nbits : Z) (signalSpread : R)
    (phyRate m dFree adFree adFreePlusOne : Z) : option R :=
  let ber := GetQamBer snr m signalSpread phyRate in
  if Req_dec_T ber 0 then Some 1%R
  else
    pd <- CalculatePd ber dFree ;;
    let pmu := (IZR adFree * pd)%R in
    pd <- CalculatePd ber (wrap32 (dFree + 1)) ;;
    let pmu := (pmu + IZR adFreePlusOne * pd)%R in
    let pmu := Rmin pmu 1 in
    let pms := ((1 - pmu) ^ Z.to_nat nbits)%R in
    Some pms.

End YansErrorRateModel.

Section DispatchEngine.

Context {libm : Libm} {env : WifiPhyEnv}.

(** The local variable [phyRate] of [DoGetChunkSuccessRate]. *)
Definition DoGetChunkSuccessRate_phyRate (mode : WifiMode)
    (txVector : WifiTxVector) (staId : Z) : Z :=
  if (IsMu txVector && (staId =? SU_STA_ID))
     || WifiMode_neq mode (GetMode txVector staId)
  then
    GetPhyRate mode
      (if Rge_dec (GetChannelWidth txVector) 40 then 20%R
       else GetChannelWidth txVector)
  else GetPhyRateTx mode txVector staId.

Definition DoGetChunkSuccessRate (mode : WifiMode) (txVector : WifiTxVector)
    (snr : R) (nbits : Z) (numRxAntennas : Z) (field : WifiPpduField)
    (staId : Z) : option R :=
  if WIFI_MOD_CLASS_ERP_OFDM <=? GetModulationClass mode then
    let phyRate := DoGetChunkSuccessRate_phyRate mode txVector staId in
    if GetConstellationSize mode =? 2 then
      if WifiCodeRate_eqb (GetCodeRate mode) WIFI_CODE_RATE_1_2 then
        GetFecBpskBer snr nbits (GetChannelWidth txVector) phyRate 10 11
      else
        GetFecBpskBer snr nbits (GetChannelWidth txVector) phyRate 5 8
    else if GetConstellationSize mode =? 4 then
      if WifiCodeRate_eqb (GetCodeRate mode) WIFI_CODE_RATE_1_2 then
        GetFecQamBer snr nbits (GetChannelWidth txVector) phyRate 4 10 11 0
      else
        GetFecQamBer snr nbits (GetChannelWidth txVector) phyRate 4 5 8 31
    else if GetConstellationSize mode =? 16 then
      if WifiCodeRate_eqb (GetCodeRate mode) WIFI_CODE_RATE_1_2 then
        GetFecQamBer snr nbits (GetChannelWidth txVector) phyRate 16 10 11 0
      else
        GetFecQamBer snr nbits (GetChannelWidth txVector) phyRate 16 5 8 31
    else if GetConstellationSize mode =? 64 then
      if WifiCodeRate_eqb (GetCodeRate mode) WIFI_CODE_RATE_2_3 then
        GetFecQamBer snr nbits (GetChannelWidth txVector) phyRate 64 6 1 16
      else if WifiCodeRate_eqb (GetCodeRate mode) WIFI_CODE_RATE_5_6 then
        GetFecQamBer snr nbits (GetChannelWidth txVector) phyRate 64 4 14 69
      else
        GetFecQamBer snr nbits (GetChannelWidth txVector) phyRate 64 5 8 31
    else if GetConstellationSize mode =? 256 then
      if WifiCodeRate_eqb (GetCodeRate mode) WIFI_CODE_RATE_5_6 then
        GetFecQamBer snr nbits (GetChannelWidth txVector) phyRate 256 4 14 69
      else
        GetFecQamBer snr nbits (GetChannelWidth txVector) phyRate 256 5 8 31
    else if GetConstellationSize mode =? 1024 then
      if WifiCodeRate_eqb (GetCodeRate mode) WIFI_CODE_RATE_5_6 then
        GetFecQamBer snr nbits (GetChannelWidth txVector) phyRate 1024 4 14 69
      else
        GetFecQamBer snr nbits (GetChannelWidth txVector) phyRate 1024 5 8 31
    else if GetConstellationSize mode =? 4096 then
      if WifiCodeRate_eqb (GetCodeRate mode) WIFI_CODE_RATE_5_6 then
        GetFecQamBer snr nbits (GetChannelWidth txVector) phyRate 4096 4 14 69
      else
        GetFecQamBer snr nbits (GetChannelWidth txVector) phyRate 4096 5 8 31
    else Some 0%R
  else Some 0%R.

End DispatchEngine.

(** ** Reference definitions, following the words of the specification *)

(** The binomial coefficient [C(n,k)], by Pascal's rule. *)
Fixpoint choose (n k : nat) : nat :=
  match n, k with
  | _, O => 1
  | O, S _ => 0
  | S n', S k' => choose n' k' + choose n' k
  end.

(** [Binomial(k, p, n) = C(n,k) * p^k * (1-p)^(n-k)]. *)
Definition Binomial_spec (k : nat) (p : R) (n : nat) : R :=
  (INR (choose n k) * p ^ k * (1 - p) ^ (n - k))%R.

(** The product [k * (k-1) * ... * 1] in unbounded integers. *)
Fixpoint Zfact (k : nat) : Z :=
  match k with
  | O => 1
  | S k' => Z.of_nat k * Zfact k'
  end.

(** The sum of [Binomial(j, ber, d)] for the [count] indices [j] from [i]
    on; it is defined when every term is. *)
Fixpoint BinomialSum (count : nat) (ber : R) (d i : Z) : option R :=
  match count with
  | O => Some 0%R
  | S count' =>
      b <- Binomial i ber d ;;
      s <- BinomialSum count' ber d (i + 1) ;;
      Some (b + s)%R
  end.

(** Odd [d]: the sum for [i] from [(d+1)/2] to [d-1].  Even [d]: the sum for
    [i] from [d/2+1] to [d-1], plus [0.5 * Binomial(d/2, ber, d)]. *)
Definition CalculatePd_spec (ber : R) (d : Z) : option R :=
  if Z.odd d then
    BinomialSum (Z.to_nat (d - (d + 1) / 2)) ber d ((d + 1) / 2)
  else
    s <- BinomialSum (Z.to_nat (d - (d / 2 + 1))) ber d (d / 2 + 1) ;;
    h <- Binomial (d / 2) ber d ;;
    Some (s + 0.5 * h)%R.

(** The coefficients of a row of the distance-spectrum table. *)
Record CodePerformanceCoefficients : Type :=
  { freeDistance : Z;
    weight : Z;
    weightPlusOne : Z }.

Definition row (d a b : Z) : CodePerformanceCoefficients :=
  {| freeDistance := d; weight := a; weightPlusOne := b |}.

(** The distance-spectrum table, keyed by constellation size and code rate.
    The rows of the binary constellation have no second weight; [0] stands
    for it. *)
Definition DistanceSpectrumTable (m : Z) (r : WifiCodeRate)
  : CodePerformanceCoefficients :=
  if m =? 2 then
    match r with
    | WIFI_CODE_RATE_1_2 => row 10 11 0
    | _ => row 5 8 0
    end
  else if (m =? 4) || (m =? 16) then
    match r with
    | WIFI_CODE_RATE_1_2 => row 10 11 0
    | _ => row 5 8 31
    end
  else if m =? 64 then
    match r with
    | WIFI_CODE_RATE_2_3 => row 6 1 16
    | WIFI_CODE_RATE_5_6 => row 4 14 69
    | _ => row 5 8 31
    end
  else
    match r with
    | WIFI_CODE_RATE_5_6 => row 4 14 69
    | _ => row 5 8 31
    end.

(** The sum of [C(n,j) * p^j * (1-p)^(n-j)] for the [count] indices [j]
    from [i] on. *)
Fixpoint BinomialSum_spec (count : nat) (p : R) (n i : nat) : R :=
  match count with
  | O => 0%R
  | S count' =>
      (Binomial_spec i p n + BinomialSum_spec count' p n (S i))%R
  end.

(** The constellation sizes of the distance-spectrum table. *)
Definition in_table (m : Z) : Prop :=
  In m [2; 4; 16; 64; 256; 1024; 4096].

(** The rows of the table that name a code rate for a constellation size. *)
Definition listed_rate (m : Z) (r : WifiCodeRate) : bool :=
  if m =? 2 then WifiCodeRate_eqb r WIFI_CODE_RATE_1_2
                 || WifiCodeRate_eqb r WIFI_CODE_RATE_3_4
  else if (m =? 4) || (m =? 16) then
    WifiCodeRate_eqb r WIFI_CODE_RATE_1_2
    || WifiCodeRate_eqb r WIFI_CODE_RATE_3_4
  else if m =? 64 then
    WifiCodeRate_eqb r WIFI_CODE_RATE_2_3
    || WifiCodeRate_eqb r WIFI_CODE_RATE_5_6
    || WifiCodeRate_eqb r WIFI_CODE_RATE_3_4
  else if (m =? 256) || (m =? 1024) || (m =? 4096) then
    WifiCodeRate_eqb r WIFI_CODE_RATE_5_6
  else false.

(** The evaluations that take the rate of a header: the transmission is
    multi-user and the station is the single-user sentinel, or the mode is
    not the mode of the TXVECTOR for the station. *)
Definition header_rate {env : WifiPhyEnv} (mode : WifiMode)
    (txVector : WifiTxVector) (staId : Z) : Prop :=
  (IsMu txVector = true /\ staId = SU_STA_ID)
  \/ WifiMode_neq mode (GetMode txVector staId) = true.

(** ** A concrete PHY, for evaluating the model *)

Module Example.

Record Mode : Type :=
  { mode_class : Z;
    mode_constellation : Z;
    mode_rate : WifiCodeRate;
    mode_bits_per_MHz : Z }.

Record TxVector : Type :=
  { tx_width : R;
    tx_mu : bool;
    tx_mode : Z -> Mode }.

Definition Mode_neq (a b : Mode) : bool :=
  negb ((mode_class a =? mode_class b)
        && (mode_constellation a =? mode_constellation b)
        && WifiCodeRate_eqb (mode_rate a) (mode_rate b)
        && (mode_bits_per_MHz a =? mode_bits_per_MHz b)).

(** A rate proportional to the width of the channel. *)
Definition PhyRate (m : Mode) (width : R) : Z :=
  mode_bits_per_MHz m * Int_part width.

(** Modulation classes are numbered from [0] (unknown), [1] (DSSS),
    [2] (HR-DSSS), [3] (ERP-OFDM), [4] (OFDM) on. *)
Definition env : WifiPhyEnv :=
  {| WifiMode := Mode;
     WifiTxVector := TxVector;
     WifiPpduField := unit;
     WIFI_MOD_CLASS_ERP_OFDM := 3;
     SU_STA_ID := 65535;
     GetModulationClass := mode_class;
     GetConstellationSize := mode_constellation;
     GetCodeRate := mode_rate;
     GetPhyRate := PhyRate;
     GetPhyRateTx := fun m tx _ => PhyRate m (tx_width tx);
     WifiMode_neq := Mode_neq;
     IsMu := tx_mu;
     GetMode := tx_mode;
     GetChannelWidth := tx_width |}.

(** A stand-in for [erfc] on non-negative arguments: [1] at [0],
    non-increasing, and exactly [0] from [1] on, as the double precision
    [erfc] is on large arguments. *)
Definition libm : Libm := {| erfc := fun z => Rmax 0 (1 - z) |}.

Definition OfdmRate6Mbps : Mode :=
  {| mode_class := 4; mode_constellation := 2;
     mode_rate := WIFI_CODE_RATE_1_2; mode_bits_per_MHz := 300000 |}.

Definition OfdmRate54Mbps : Mode :=
  {| mode_class := 4; mode_constellation := 64;
     mode_rate := WIFI_CODE_RATE_3_4; mode_bits_per_MHz := 2700000 |}.

Definition HtMcs7 : Mode :=
  {| mode_class := 5; mode_constellation := 64;
     mode_rate := WIFI_CODE_RATE_5_6; mode_bits_per_MHz := 3250000 |}.

Definition DsssRate1Mbps : Mode :=
  {| mode_class := 1; mode_constellation := 2;
     mode_rate := WIFI_CODE_RATE_1_2; mode_bits_per_MHz := 50000 |}.

(** A binary mode with a code rate that the table does not list for it. *)
Definition Bpsk_2_3 : Mode :=
  {| mode_class := 4; mode_constellation := 2;
     mode_rate := WIFI_CODE_RATE_2_3; mode_bits_per_MHz := 400000 |}.

(** An eligible mode with a constellation size outside the table. *)
Definition Psk8 : Mode :=
  {| mode_class := 4; mode_constellation := 8;
     mode_rate := WIFI_CODE_RATE_3_4; mode_bits_per_MHz := 900000 |}.

(** A single-user TXVECTOR of the given width and mode. *)
Definition su (width : R) (m : Mode) : TxVector :=
  {| tx_width := width; tx_mu := false; tx_mode := fun _ => m |}.

End Example.

(** The test behind the table of exact coefficients: the divisor that
    [Binomial] computes is not [0] and the quotient is [C(n,k)]. *)
Definition coefficient_exact (n k : nat) : bool :=
  let divisor :=
    wrap32 (Factorial (Z.of_nat k)
            * Factorial (wrap32 (Z.of_nat n - Z.of_nat k))) in
  negb (divisor =? 0)
  && (Factorial (Z.of_nat n) / divisor =? Z.of_nat (choose n k)).

(** * Properties *)

(** ** 32-bit arithmetic *)

Ltac Zify.zify_post_hook ::= Z.to_euclidean_division_equations.

Ltac unwrap :=
  unfold wrap32, is_uint32 in *; change (2 ^ 32) with 4294967296 in *.

Lemma wrap32_small (x : Z) : is_uint32 x -> wrap32 x = x.
Proof. unwrap. intros Hx. now apply Z.mod_small. Qed.

Lemma wrap32_range (x : Z) : is_uint32 (wrap32 x).
Proof. unwrap. apply Z.mod_pos_bound. lia. Qed.

Lemma wrap32_mul_l (a b : Z) : wrap32 (wrap32 a * b) = wrap32 (a * b).
Proof. unfold wrap32. now rewrite Z.mul_mod_idemp_l by discriminate. Qed.

Lemma Zfact_succ (n : nat) : Zfact (S n) = Z.of_nat (S n) * Zfact n.
Proof. reflexivity. Qed.

Lemma Factorial_loop_Zfact (n : nat) :
  forall acc : Z,
    is_uint32 acc ->
    Factorial_loop n acc (Z.of_nat n) = wrap32 (acc * Zfact n).
Proof.
  induction n as [|n IH]; intros acc Hacc.
  - cbn [Factorial_loop Zfact]. rewrite Z.mul_1_r.
    symmetry. now apply wrap32_small.
  - cbn [Factorial_loop].
    replace (0 <? Z.of_nat (S n)) with true by (symmetry; apply Z.ltb_lt; lia).
    replace (Z.of_nat (S n) - 1) with (Z.of_nat n) by lia.
    rewrite IH by apply wrap32_range.
    rewrite wrap32_mul_l, Zfact_succ. f_equal. ring.
Qed.

(** [Factorial] is the factorial modulo [2^32]. *)
Lemma Factorial_Zfact (k : Z) :
  0 <= k -> Factorial k = wrap32 (Zfact (Z.to_nat k)).
Proof.
  intros Hk. unfold Factorial.
  rewrite <- (Z2Nat.id k) at 2 by assumption.
  rewrite Factorial_loop_Zfact by (unwrap; lia).
  now rewrite Z.mul_1_l.
Qed.

Lemma Factorial_range (k : Z) : is_uint32 (Factorial k).
Proof.
  destruct (Z.le_gt_cases 0 k) as [Hk|Hk].
  - rewrite Factorial_Zfact by assumption. apply wrap32_range.
  - unfold Factorial. replace (Z.to_nat k) with O by lia.
    cbn. unwrap. lia.
Qed.

Lemma Zfact_34_plus (m : nat) : wrap32 (Zfact (34 + m)) = 0.
Proof.
  induction m as [|m IH].
  - vm_compute. reflexivity.
  - rewrite Nat.add_succ_r, Zfact_succ.
    unfold wrap32 in *.
    rewrite Z.mul_mod, IH, Z.mul_0_r by discriminate. reflexivity.
Qed.

(** From [34] on the 32-bit factorial is [0]: [34!] is a multiple of
    [2^32]. *)
Lemma Factorial_vanishes (k : Z) : 34 <= k -> Factorial k = 0.
Proof.
  intros Hk. rewrite Factorial_Zfact by lia.
  replace (Z.to_nat k) with (34 + (Z.to_nat k - 34))%nat by lia.
  apply Zfact_34_plus.
Qed.

Lemma coefficient_exact_12 (n k : nat) :
  (k <= n <= 12)%nat -> coefficient_exact n k = true.
Proof.
  intros Hk.
  do 13 (destruct n as [|n];
         [ do 13 (destruct k as [|k];
                  [ first [ lia | vm_compute; reflexivity ] | ]); lia | ]).
  lia.
Qed.

Example Factorial_12 : Factorial 12 = 479001600.
Proof. reflexivity. Qed.

Example Factorial_13 : Factorial 13 = 6227020800 - 2 ^ 32.
Proof. reflexivity. Qed.

Example Factorial_34 : Factorial 34 = 0.
Proof. vm_compute. reflexivity. Qed.

Example choose_11_5 : choose 11 5 = 462%nat.
Proof. reflexivity. Qed.

Example choose_13_1 : choose 13 1 = 13%nat.
Proof. reflexivity. Qed.

(** ** The binomial term *)

Lemma Binomial_exact (k n : Z) (p : R) :
  0 <= k <= n -> n <= 12 ->
  Binomial k p n = Some (Binomial_spec (Z.to_nat k) p (Z.to_nat n)).
Proof.
  intros Hk Hn.
  pose proof (coefficient_exact_12 (Z.to_nat n) (Z.to_nat k)) as Hc.
  unfold coefficient_exact in Hc.
  rewrite !Z2Nat.id in Hc by lia.
  specialize (Hc ltac:(lia)).
  apply andb_true_iff in Hc. destruct Hc as [Hd Hq].
  apply negb_true_iff in Hd. apply Z.eqb_eq in Hq.
  unfold Binomial, Binomial_spec. rewrite Hd, Hq.
  rewrite wrap32_small by (unwrap; lia).
  rewrite Z2Nat.inj_sub by lia.
  now rewrite <- INR_IZR_INZ.
Qed.

Lemma Binomial_nonneg (k n : Z) (p b : R) :
  (0 <= p <= 1)%R -> Binomial k p n = Some b -> (0 <= b)%R.
Proof.
  intros Hp. unfold Binomial.
  destruct (_ =? 0) eqn:Hd; [discriminate|].
  intros Hb. injection Hb as <-.
  apply Z.eqb_neq in Hd.
  pose proof (wrap32_range
                (Factorial k * Factorial (wrap32 (n - k)))) as Hr.
  pose proof (Factorial_range n) as Hf.
  unfold is_uint32 in Hr, Hf.
  repeat apply Rmult_le_pos.
  - apply IZR_le. apply Z.div_pos; lia.
  - apply pow_le. lra.
  - apply pow_le. lra.
Qed.

(** The division by zero: one of the two factorials of the divisor is [0]. *)
Lemma Binomial_aborts_l (k n : Z) (p : R) :
  34 <= k -> Binomial k p n = None.
Proof.
  intros Hk. unfold Binomial.
  rewrite (Factorial_vanishes k) by assumption.
  now rewrite Z.mul_0_l.
Qed.

Lemma Binomial_aborts_r (k n : Z) (p : R) :
  34 <= wrap32 (n - k) -> Binomial k p n = None.
Proof.
  intros Hk. unfold Binomial.
  rewrite (Factorial_vanishes (wrap32 (n - k))) by assumption.
  now rewrite Z.mul_0_r.
Qed.

(** ** The pairwise error probability *)

Lemma bind_Some {A B : Type} (a : A) (f : A -> option B) :
  bind (Some a) f = f a.
Proof. reflexivity. Qed.

(** The accumulating loop adds the sum of its terms to the accumulator;
    its fuel is never exhausted. *)
Lemma CalculatePd_loop_sum (ber : R) (d dend : Z) :
  dend < 2 ^ 32 ->
  forall (fuel : nat) (i : Z) (pd : R),
    0 <= i ->
    (Z.to_nat (dend - i) <= fuel)%nat ->
    CalculatePd_loop fuel ber d i dend pd
    = (s <- BinomialSum (Z.to_nat (dend - i)) ber d i ;; Some (pd + s)%R).
Proof.
  intros Hend. induction fuel as [|fuel IH]; intros i pd Hi Hfuel.
  - cbn [CalculatePd_loop].
    destruct (i <? dend) eqn:Hlt.
    + apply Z.ltb_lt in Hlt. lia.
    + apply Z.ltb_ge in Hlt.
      replace (Z.to_nat (dend - i)) with O by lia.
      cbn. f_equal. lra.
  - cbn [CalculatePd_loop].
    destruct (i <? dend) eqn:Hlt.
    + apply Z.ltb_lt in Hlt.
      replace (Z.to_nat (dend - i)) with (S (Z.to_nat (dend - (i + 1))))
        by lia.
      cbn [BinomialSum].
      destruct (Binomial i ber d) as [b|]; [|reflexivity].
      rewrite !bind_Some.
      rewrite wrap32_small by (unwrap; lia).
      rewrite IH by lia.
      destruct (BinomialSum _ ber d (i + 1)) as [s|]; [|reflexivity].
      cbn. f_equal. lra.
    + apply Z.ltb_ge in Hlt.
      replace (Z.to_nat (dend - i)) with O by lia.
      cbn. f_equal. lra.
Qed.

Lemma mod2_odd (d : Z) : (d mod 2 =? 0) = negb (Z.odd d).
Proof.
  rewrite Zmod_odd. now destruct (Z.odd d).
Qed.

Lemma CalculatePd_refines (ber : R) (d : Z) :
  is_uint32 d -> CalculatePd ber d = CalculatePd_spec ber d.
Proof.
  intros Hd. unfold CalculatePd, CalculatePd_spec.
  rewrite mod2_odd. destruct (Z.odd d) eqn:Hodd; cbn [negb].
  - (* odd *)
    unfold CalculatePdOdd.
    assert (Hm : d mod 2 = 1) by (rewrite Zmod_odd, Hodd; reflexivity).
    rewrite Hm. cbn [Z.eqb Pos.eqb negb].
    destruct (Z.eq_dec d (2 ^ 32 - 1)) as [Hmax|Hmax].
    + (* [d + 1] wraps to [0]: the first term of either sum aborts *)
      assert (Hw : wrap32 (d + 1) / 2 = 0) by (rewrite Hmax; reflexivity).
      assert (Hh : (d + 1) / 2 = 2 ^ 31) by (rewrite Hmax; reflexivity).
      rewrite Hw, Hh.
      assert (Hpos : 0 < d) by (rewrite Hmax; reflexivity).
      assert (Hbig : 34 <= d) by (rewrite Hmax; discriminate).
      destruct (Z.to_nat (d - 0)) as [|fuel] eqn:Hfuel; [lia|].
      cbn [CalculatePd_loop].
      replace (0 <? d) with true by (symmetry; now apply Z.ltb_lt).
      rewrite Binomial_aborts_r
        by (rewrite Z.sub_0_r, wrap32_small; assumption).
      assert (Hcount : (0 < Z.to_nat (d - 2 ^ 31))%nat).
      { apply Nat2Z.inj_lt. rewrite Z2Nat.id; rewrite Hmax; try reflexivity.
        discriminate. }
      destruct (Z.to_nat (d - 2 ^ 31)) as [|count]; [lia|].
      cbn [BinomialSum].
      rewrite Binomial_aborts_l by discriminate. reflexivity.
    + unwrap.
      rewrite (Z.mod_small (d + 1)) by lia.
      rewrite CalculatePd_loop_sum by lia.
      destruct (BinomialSum _ ber d ((d + 1) / 2)) as [s|]; [|reflexivity].
      cbn. f_equal. lra.
  - (* even *)
    unfold CalculatePdEven.
    assert (Hm : d mod 2 = 0) by (rewrite Zmod_odd, Hodd; reflexivity).
    rewrite Hm. cbn [Z.eqb negb].
    assert (Hhalf : 0 <= d / 2 < 2147483648) by (unwrap; lia).
    rewrite wrap32_small by (unwrap; lia).
    rewrite CalculatePd_loop_sum by (unwrap; lia).
    destruct (BinomialSum _ ber d (d / 2 + 1)) as [s|]; [|reflexivity].
    cbn [bind].
    destruct (Binomial (d / 2) ber d) as [h|]; [|reflexivity].
    cbn. f_equal. lra.
Qed.

Lemma BinomialSum_total (ber : R) (d : Z) :
  d <= 12 ->
  forall (count : nat) (i : Z),
    0 <= i -> ((0 < count)%nat -> i + Z.of_nat count <= d) ->
    exists s : R, BinomialSum count ber d i = Some s.
Proof.
  intros Hd. induction count as [|count IH]; intros i Hi Hend.
  - now exists 0%R.
  - cbn [BinomialSum]. specialize (Hend ltac:(lia)).
    rewrite Binomial_exact by lia. rewrite bind_Some.
    destruct (IH (i + 1)) as [s Hs]; [lia|lia|].
    rewrite Hs. cbn. eauto.
Qed.

Lemma BinomialSum_nonneg (ber : R) (d : Z) :
  (0 <= ber <= 1)%R ->
  forall (count : nat) (i : Z) (s : R),
    BinomialSum count ber d i = Some s -> (0 <= s)%R.
Proof.
  intros Hber. induction count as [|count IH]; intros i s.
  - cbn. intros Hs. injection Hs as <-. lra.
  - cbn [BinomialSum].
    destruct (Binomial i ber d) as [b|] eqn:Hb; [|discriminate].
    rewrite bind_Some.
    destruct (BinomialSum count ber d (i + 1)) as [s'|] eqn:Hs';
      [|discriminate].
    cbn. intros Hs. injection Hs as <-.
    apply (Binomial_nonneg _ _ _ _ Hber) in Hb.
    apply IH in Hs'. lra.
Qed.

(** For a distance of at most [12] the factorials do not wrap and
    [CalculatePd] returns. *)
Lemma CalculatePd_total (ber : R) (d : Z) :
  0 <= d <= 12 -> exists pd : R, CalculatePd ber d = Some pd.
Proof.
  intros Hd. rewrite CalculatePd_refines by (unwrap; lia).
  unfold CalculatePd_spec. destruct (Z.odd d).
  - apply BinomialSum_total; lia.
  - destruct (BinomialSum_total ber d ltac:(lia)
                (Z.to_nat (d - (d / 2 + 1))) (d / 2 + 1)) as [s Hs];
      [lia|lia|].
    rewrite Hs, bind_Some, Binomial_exact by lia.
    cbn. eauto.
Qed.

Lemma CalculatePd_nonneg (ber : R) (d : Z) (pd : R) :
  is_uint32 d -> (0 <= ber <= 1)%R ->
  CalculatePd ber d = Some pd -> (0 <= pd)%R.
Proof.
  intros Hd Hber. rewrite CalculatePd_refines by assumption.
  unfold CalculatePd_spec. destruct (Z.odd d).
  - apply BinomialSum_nonneg. assumption.
  - destruct (BinomialSum _ ber d (d / 2 + 1)) as [s|] eqn:Hs;
      [|discriminate].
    rewrite bind_Some.
    destruct (Binomial (d / 2) ber d) as [h|] eqn:Hh; [|discriminate].
    cbn. intros Hpd. injection Hpd as <-.
    apply (BinomialSum_nonneg _ _ Hber) in Hs.
    apply (Binomial_nonneg _ _ _ _ Hber) in Hh. lra.
Qed.

(** ** Success probabilities *)

Lemma success_range (pmu : R) (nbits : nat) :
  (0 <= pmu)%R -> (0 <= (1 - Rmin pmu 1) ^ nbits <= 1)%R.
Proof.
  intros Hp.
  assert (Hm : (0 <= 1 - Rmin pmu 1 <= 1)%R).
  { unfold Rmin. destruct (Rle_dec pmu 1); lra. }
  split.
  - apply pow_le. lra.
  - apply Rle_trans with (1 ^ nbits)%R.
    + apply pow_incr. lra.
    + rewrite pow1. lra.
Qed.

Section Ranges.

Context {libm : Libm} {libm_spec : LibmSpec}.

Lemma GetBpskBer_range (snr signalSpread : R) (phyRate : Z) :
  (0 <= GetBpskBer snr signalSpread phyRate <= 1)%R.
Proof.
  unfold GetBpskBer.
  pose proof (erfc_range _ (sqrt_pos (snr * signalSpread * 1e6
                                      / IZR phyRate))) as He.
  lra.
Qed.

Lemma log2_ge_1 (x : R) : (2 <= x)%R -> (1 <= log2 x)%R.
Proof.
  intros Hx. unfold log2.
  pose proof ln_lt_2 as H2.
  assert (Hln : (ln 2 <= ln x)%R).
  { destruct Hx as [Hlt|<-]; [|lra].
    left. apply ln_increasing; lra. }
  apply (Rmult_le_reg_r (ln 2)); [lra|].
  unfold Rdiv. rewrite Rmult_assoc, Rinv_l by lra. lra.
Qed.

Lemma GetQamBer_range (snr : R) (m : Z) (signalSpread : R) (phyRate : Z) :
  2 <= m -> (0 <= GetQamBer snr m signalSpread phyRate <= 1)%R.
Proof.
  intros Hm. unfold GetQamBer.
  set (z := sqrt (_ / (IZR m - 1.0))).
  pose proof (erfc_range z (sqrt_pos _)) as He.
  assert (HmR : (2 <= IZR m)%R) by now apply IZR_le.
  assert (Hs : (1 <= sqrt (IZR m))%R).
  { rewrite <- sqrt_1. apply sqrt_le_1_alt. lra. }
  assert (Hi : (0 < / sqrt (IZR m) <= 1)%R).
  { split.
    - apply Rinv_0_lt_compat. lra.
    - rewrite <- Rinv_1. apply Rinv_le_contravar; lra. }
  set (a := (1.0 - 1.0 / sqrt (IZR m))%R).
  assert (Ha : (0 <= a <= 1)%R) by (unfold a, Rdiv; lra).
  assert (Hz1 : (0 <= a * erfc z <= 1)%R) by nra.
  set (z1 := (a * erfc z)%R) in *.
  assert (Hz2 : (0 <= 1 - (1 - z1) ^ 2 <= 1)%R) by (cbn [pow]; nra).
  set (z2 := (1 - (1 - z1) ^ 2)%R) in *.
  pose proof (log2_ge_1 _ HmR) as Hl.
  set (l := log2 (IZR m)) in *.
  assert (Hil : (0 < / l <= 1)%R).
  { split.
    - apply Rinv_0_lt_compat. lra.
    - rewrite <- Rinv_1. apply Rinv_le_contravar; lra. }
  unfold Rdiv. nra.
Qed.

Lemma GetFecBpskBer_range (snr : R) (nbits : Z) (signalSpread : R)
    (phyRate dFree adFree : Z) :
  0 <= dFree <= 12 -> 0 <= adFree ->
  exists pms : R,
    GetFecBpskBer snr nbits signalSpread phyRate dFree adFree = Some pms
    /\ (0 <= pms <= 1)%R.
Proof.
  intros Hd Ha. unfold GetFecBpskBer.
  destruct (Req_dec_T _ 0) as [_|_]; [exists 1%R; split; [reflexivity|lra]|].
  pose proof (GetBpskBer_range snr signalSpread phyRate) as Hber.
  destruct (CalculatePd_total (GetBpskBer snr signalSpread phyRate) dFree Hd)
    as [pd Hpd].
  rewrite Hpd, bind_Some. eexists. split; [reflexivity|].
  apply success_range.
  apply CalculatePd_nonneg in Hpd; [|unwrap; lia|assumption].
  apply Rmult_le_pos; [now apply IZR_le|assumption].
Qed.

Lemma GetFecQamBer_range (snr : R) (nbits : Z) (signalSpread : R)
    (phyRate m dFree adFree adFreePlusOne : Z) :
  2 <= m -> 0 <= dFree <= 11 -> 0 <= adFree -> 0 <= adFreePlusOne ->
  exists pms : R,
    GetFecQamBer snr nbits signalSpread phyRate m dFree adFree adFreePlusOne
    = Some pms
    /\ (0 <= pms <= 1)%R.
Proof.
  intros Hm Hd Ha Hb. unfold GetFecQamBer.
  destruct (Req_dec_T _ 0) as [_|_]; [exists 1%R; split; [reflexivity|lra]|].
  pose proof (GetQamBer_range snr m signalSpread phyRate Hm) as Hber.
  set (ber := GetQamBer snr m signalSpread phyRate) in *.
  rewrite (wrap32_small (dFree + 1)) by (unwrap; lia).
  destruct (CalculatePd_total ber dFree ltac:(lia)) as [pd Hpd].
  destruct (CalculatePd_total ber (dFree + 1) ltac:(lia)) as [pd' Hpd'].
  rewrite Hpd, bind_Some, Hpd', bind_Some.
  eexists. split; [reflexivity|].
  apply success_range.
  apply CalculatePd_nonneg in Hpd; [|unwrap; lia|assumption].
  apply CalculatePd_nonneg in Hpd'; [|unwrap; lia|assumption].
  apply Rplus_le_le_0_compat; apply Rmult_le_pos;
    solve [now apply IZR_le | assumption].
Qed.

End Ranges.

(** ** The dispatch *)

Lemma GetFecBpskBer_no_bits (libm : Libm) (snr signalSpread : R)
    (phyRate dFree adFree : Z) :
  0 <= dFree <= 12 ->
  GetFecBpskBer snr 0 signalSpread phyRate dFree adFree = Some 1%R.
Proof.
  intros Hd. unfold GetFecBpskBer.
  destruct (Req_dec_T _ 0) as [_|_]; [reflexivity|].
  destruct (CalculatePd_total (GetBpskBer snr signalSpread phyRate) dFree Hd)
    as [pd ->].
  reflexivity.
Qed.

Lemma GetFecQamBer_no_bits (libm : Libm) (snr signalSpread : R)
    (phyRate m dFree adFree adFreePlusOne : Z) :
  0 <= dFree <= 11 ->
  GetFecQamBer snr 0 signalSpread phyRate m dFree adFree adFreePlusOne
  = Some 1%R.
Proof.
  intros Hd. unfold GetFecQamBer.
  destruct (Req_dec_T _ 0) as [_|_]; [reflexivity|].
  rewrite (wrap32_small (dFree + 1)) by (unwrap; lia).
  destruct (CalculatePd_total (GetQamBer snr m signalSpread phyRate) dFree
              ltac:(lia)) as [pd ->].
  destruct (CalculatePd_total (GetQamBer snr m signalSpread phyRate)
              (dFree + 1) ltac:(lia)) as [pd' ->].
  reflexivity.
Qed.

Lemma GetFecBpskBer_perfect (libm : Libm) (snr : R) (nbits : Z)
    (signalSpread : R) (phyRate dFree adFree : Z) :
  GetBpskBer snr signalSpread phyRate = 0%R ->
  GetFecBpskBer snr nbits signalSpread phyRate dFree adFree = Some 1%R.
Proof.
  intros Hber. unfold GetFecBpskBer.
  destruct (Req_dec_T _ 0) as [_|Hne]; [reflexivity|contradiction].
Qed.

Lemma GetFecQamBer_perfect (libm : Libm) (snr : R) (nbits : Z)
    (signalSpread : R) (phyRate m dFree adFree adFreePlusOne : Z) :
  GetQamBer snr m signalSpread phyRate = 0%R ->
  GetFecQamBer snr nbits signalSpread phyRate m dFree adFree adFreePlusOne
  = Some 1%R.
Proof.
  intros Hber. unfold GetFecQamBer.
  destruct (Req_dec_T _ 0) as [_|Hne]; [reflexivity|contradiction].
Qed.

Lemma WifiCodeRate_eqb_eq (a b : WifiCodeRate) :
  WifiCodeRate_eqb a b = true <-> a = b.
Proof. destruct a, b; cbn; split; congruence. Qed.

Lemma DistanceSpectrumTable_bounds (m : Z) (r : WifiCodeRate) :
  0 <= freeDistance (DistanceSpectrumTable m r) <= 10
  /\ 0 <= weight (DistanceSpectrumTable m r)
  /\ 0 <= weightPlusOne (DistanceSpectrumTable m r).
Proof.
  unfold DistanceSpectrumTable.
  destruct (m =? 2), ((m =? 4) || (m =? 16)), (m =? 64), r; cbn; lia.
Qed.

Section Dispatch.

Context {libm : Libm} {env : WifiPhyEnv}.

Variables (mode : WifiMode) (txVector : WifiTxVector) (snr : R)
  (nbits numRxAntennas : Z) (field : WifiPpduField) (staId : Z).

Let result : option R :=
  DoGetChunkSuccessRate mode txVector snr nbits numRxAntennas field staId.
Let width : R := GetChannelWidth txVector.
Let phyRate : Z := DoGetChunkSuccessRate_phyRate mode txVector staId.

(** An eligible mode with a constellation size of the table is answered by
    one of the two coded estimators, on the width of the channel and the
    selected PHY rate, with the coefficients of its row of the table. *)
Lemma DoGetChunkSuccessRate_row :
  WIFI_MOD_CLASS_ERP_OFDM <= GetModulationClass mode ->
  in_table (GetConstellationSize mode) ->
  result
  = let c := DistanceSpectrumTable (GetConstellationSize mode)
               (GetCodeRate mode) in
    if GetConstellationSize mode =? 2 then
      GetFecBpskBer snr nbits width phyRate (freeDistance c) (weight c)
    else
      GetFecQamBer snr nbits width phyRate (GetConstellationSize mode)
        (freeDistance c) (weight c) (weightPlusOne c).
Proof.
  intros Hclass Hsize.
  unfold result, DoGetChunkSuccessRate.
  apply Z.leb_le in Hclass. rewrite Hclass.
  fold phyRate. fold width.
  unfold in_table in Hsize. cbn [In] in Hsize.
  destruct Hsize as [E|[E|[E|[E|[E|[E|[E|[]]]]]]]];
    rewrite <- E; unfold DistanceSpectrumTable;
    cbn [Z.eqb Pos.eqb orb]; destruct (GetCodeRate mode); reflexivity.
Qed.

Lemma DoGetChunkSuccessRate_ineligible :
  GetModulationClass mode < WIFI_MOD_CLASS_ERP_OFDM ->
  result = Some 0%R.
Proof.
  intros Hclass. unfold result, DoGetChunkSuccessRate.
  apply Z.leb_gt in Hclass. now rewrite Hclass.
Qed.

Lemma DoGetChunkSuccessRate_off_table :
  ~ in_table (GetConstellationSize mode) -> result = Some 0%R.
Proof.
  intros Hsize. unfold result, DoGetChunkSuccessRate.
  destruct (_ <=? _); [|reflexivity].
  unfold in_table in Hsize. cbn [In] in Hsize.
  repeat match goal with
         | |- context [GetConstellationSize mode =? ?c] =>
             destruct (Z.eqb_spec (GetConstellationSize mode) c);
             [exfalso; apply Hsize; intuition congruence|]
         end.
  reflexivity.
Qed.

End Dispatch.

(** ** Facts about the concrete PHY *)

Lemma example_Int_part (z : Z) : Int_part (IZR z) = z.
Proof. symmetry. apply Int_part_spec. lra. Qed.

Lemma example_PhyRate (m : Example.Mode) (z : Z) :
  Example.PhyRate m (IZR z) = Example.mode_bits_per_MHz m * z.
Proof. unfold Example.PhyRate. now rewrite example_Int_part. Qed.

Lemma example_libm_spec : @LibmSpec Example.libm.
Proof.
  constructor. intros z Hz. cbn [erfc Example.libm].
  unfold Rmax. destruct (Rle_dec 0 (1 - z)); lra.
Qed.

Lemma example_erfc_vanishes (z : R) :
  (1 <= z)%R -> @erfc Example.libm z = 0%R.
Proof.
  intros Hz. cbn [erfc Example.libm].
  unfold Rmax. destruct (Rle_dec 0 (1 - z)); lra.
Qed.

Lemma sqrt_ge_1 (x : R) : (1 <= x)%R -> (1 <= sqrt x)%R.
Proof.
  intros Hx. rewrite <- sqrt_1. apply sqrt_le_1_alt. assumption.
Qed.

(** With the stand-in for [erfc], an [EbNo] of at least [1] gives a raw
    bit error rate of exactly [0]. *)
Lemma example_GetBpskBer_zero (snr signalSpread : R) (phyRate : Z) :
  (1 <= snr * signalSpread * 1e6 / IZR phyRate)%R ->
  @GetBpskBer Example.libm snr signalSpread phyRate = 0%R.
Proof.
  intros Hx. unfold GetBpskBer.
  rewrite example_erfc_vanishes by now apply sqrt_ge_1.
  lra.
Qed.

Lemma example_GetQamBer_zero (snr : R) (m : Z) (signalSpread : R)
    (phyRate : Z) :
  2 <= m ->
  (IZR m - 1 <= snr * signalSpread * 1e6 / IZR phyRate)%R ->
  @GetQamBer Example.libm snr m signalSpread phyRate = 0%R.
Proof.
  intros Hm Hx. unfold GetQamBer.
  assert (HmR : (2 <= IZR m)%R) by now apply IZR_le.
  pose proof (log2_ge_1 _ HmR) as Hl.
  set (l := log2 (IZR m)) in *.
  set (EbNo := (snr * signalSpread * 1e6 / IZR phyRate)%R) in *.
  rewrite example_erfc_vanishes.
  - unfold Rdiv. rewrite Rmult_0_r.
    replace (1 - (1 - 0) ^ 2)%R with 0%R by (cbn [pow]; lra).
    apply Rmult_0_l.
  - apply sqrt_ge_1.
    assert (Hinv : (0 < / (IZR m - 1.0))%R)
      by (apply Rinv_0_lt_compat; lra).
    apply (Rmult_le_reg_r (IZR m - 1.0)); [lra|].
    unfold Rdiv. rewrite Rmult_assoc, Rinv_l by lra. nra.
Qed.

(** ** Totality on the table and the header rate *)

Lemma GetFecBpskBer_total {libm : Libm} (snr : R) (nbits : Z)
    (signalSpread : R) (phyRate dFree adFree : Z) :
  0 <= dFree <= 12 ->
  exists pms : R,
    GetFecBpskBer snr nbits signalSpread phyRate dFree adFree = Some pms.
Proof.
  intros Hd. unfold GetFecBpskBer.
  destruct (Req_dec_T _ 0) as [_|_]; [eauto|].
  destruct (CalculatePd_total (GetBpskBer snr signalSpread phyRate) dFree Hd)
    as [pd ->].
  cbn. eauto.
Qed.

Lemma GetFecQamBer_total {libm : Libm} (snr : R) (nbits : Z)
    (signalSpread : R) (phyRate m dFree adFree adFreePlusOne : Z) :
  0 <= dFree <= 11 ->
  exists pms : R,
    GetFecQamBer snr nbits signalSpread phyRate m dFree adFree adFreePlusOne
    = Some pms.
Proof.
  intros Hd. unfold GetFecQamBer.
  destruct (Req_dec_T _ 0) as [_|_]; [eauto|].
  rewrite (wrap32_small (dFree + 1)) by (unwrap; lia).
  destruct (CalculatePd_total (GetQamBer snr m signalSpread phyRate) dFree
              ltac:(lia)) as [pd ->].
  destruct (CalculatePd_total (GetQamBer snr m signalSpread phyRate)
              (dFree + 1) ltac:(lia)) as [pd' ->].
  cbn. eauto.
Qed.

Lemma in_table_dec (m : Z) : {in_table m} + {~ in_table m}.
Proof. apply in_dec, Z.eq_dec. Qed.

(** [DoGetChunkSuccessRate] returns on every input. *)
Lemma DoGetChunkSuccessRate_total {libm : Libm} {env : WifiPhyEnv}
    (mode : WifiMode) (txVector : WifiTxVector) (snr : R)
    (nbits numRxAntennas : Z) (field : WifiPpduField) (staId : Z) :
  exists p : R,
    DoGetChunkSuccessRate mode txVector snr nbits numRxAntennas field staId
    = Some p.
Proof.
  destruct (Z.lt_ge_cases (GetModulationClass mode) WIFI_MOD_CLASS_ERP_OFDM)
    as [Hclass|Hclass].
  { rewrite DoGetChunkSuccessRate_ineligible by assumption. eauto. }
  destruct (in_table_dec (GetConstellationSize mode)) as [Hsize|Hsize].
  - rewrite DoGetChunkSuccessRate_row by assumption. cbv zeta.
    pose proof (DistanceSpectrumTable_bounds (GetConstellationSize mode)
                  (GetCodeRate mode)) as Hb.
    destruct (_ =? 2).
    + apply GetFecBpskBer_total. lia.
    + apply GetFecQamBer_total. lia.
  - rewrite DoGetChunkSuccessRate_off_table by assumption. eauto.
Qed.

Lemma DoGetChunkSuccessRate_phyRate_header {env : WifiPhyEnv}
    (mode : WifiMode) (txVector : WifiTxVector) (staId : Z) :
  header_rate mode txVector staId ->
  (40 <= GetChannelWidth txVector)%R ->
  DoGetChunkSuccessRate_phyRate mode txVector staId = GetPhyRate mode 20.
Proof.
  intros Hh Hw. unfold DoGetChunkSuccessRate_phyRate.
  destruct (Rge_dec _ 40); [|lra].
  destruct Hh as [[Hmu Hsta]|Hneq].
  - now rewrite Hmu, Hsta, Z.eqb_refl.
  - now rewrite Hneq, orb_true_r.
Qed.

(** * The properties stated by the specification *)

Lemma Zfact_below_13 (n : nat) : (n <= 12)%nat -> is_uint32 (Zfact n).
Proof.
  intros Hn.
  do 13 (destruct n as [|n]; [vm_compute; split; [discriminate|reflexivity]|]).
  lia.
Qed.

(** C1, as the code has it: up to [n = 12] the 32-bit factorials are the
    factorials themselves, the division is defined, and for every
    [0 <= k <= n] and every [p] the call [Binomial(k, p, n)] returns
    [C(n,k) * p^k * (1-p)^(n-k)]. *)
Theorem Binomial_exact_below_13 (k n : Z) (p : R) :
  0 <= k <= n -> n <= 12 ->
  Factorial n = Zfact (Z.to_nat n)
  /\ Binomial k p n = Some (Binomial_spec (Z.to_nat k) p (Z.to_nat n)).
Proof.
  intros Hk Hn. split.
  - rewrite Factorial_Zfact by lia.
    apply wrap32_small, Zfact_below_13. lia.
  - now apply Binomial_exact.
Qed.

Lemma Binomial_exact_below_13_witness :
  Factorial 11 = Zfact (Z.to_nat 11)
  /\ Binomial 5 (1 / 4) 11
     = Some (Binomial_spec (Z.to_nat 5) (1 / 4) (Z.to_nat 11)).
Proof. apply Binomial_exact_below_13; lia. Defined.

(** C1 fails from [n = 13] on.  [13!] wraps to [1932053504], so that
    [Binomial(1, 1/2, 13)] is computed with the coefficient
    [1932053504 / 479001600 = 4] where [C(13,1) = 13]; and [34!] wraps to
    [0], so that [Binomial(0, 1/2, 34)] divides by zero. *)
Lemma Binomial_wraps_at_13 :
  Binomial 1 (1 / 2) 13 = Some (4 * (1 / 2) ^ 1 * (1 - 1 / 2) ^ 12)%R
  /\ Binomial 1 (1 / 2) 13 <> Some (Binomial_spec 1 (1 / 2) 13)
  /\ Binomial 0 (1 / 2) 34 = None.
Proof.
  assert (Hv : Binomial 1 (1 / 2) 13
               = Some (4 * (1 / 2) ^ 1 * (1 - 1 / 2) ^ 12)%R).
  { unfold Binomial.
    replace (wrap32 (Factorial 1 * Factorial (wrap32 (13 - 1))))
      with 479001600 by (vm_compute; reflexivity).
    replace (Factorial 13) with 1932053504 by (vm_compute; reflexivity).
    replace (wrap32 (13 - 1)) with 12 by (vm_compute; reflexivity).
    reflexivity. }
  split; [exact Hv|split].
  - rewrite Hv. unfold Binomial_spec.
    replace (choose 13 1) with 13%nat by (vm_compute; reflexivity).
    replace (13 - 1)%nat with 12%nat by reflexivity.
    rewrite INR_IZR_INZ. change (Z.of_nat 13) with 13.
    intros Heq. injection Heq as Heq.
    assert (Hp : (0 < (1 / 2) ^ 1 * (1 - 1 / 2) ^ 12)%R).
    { apply Rmult_lt_0_compat; apply pow_lt; lra. }
    set (x := (1 / 2) ^ 1) in *. set (y := (1 - 1 / 2) ^ 12) in *.
    nra.
  - apply Binomial_aborts_r. vm_compute. discriminate.
Qed.

(** C8: a mode whose modulation class is below ERP-OFDM gets [0], whatever
    the SNR, the bit count, the TXVECTOR, the field and the station. *)
Theorem DoGetChunkSuccessRate_unmodeled {libm : Libm} {env : WifiPhyEnv}
    (mode : WifiMode) (txVector : WifiTxVector) (snr : R)
    (nbits numRxAntennas : Z) (field : WifiPpduField) (staId : Z) :
  GetModulationClass mode < WIFI_MOD_CLASS_ERP_OFDM ->
  DoGetChunkSuccessRate mode txVector snr nbits numRxAntennas field staId
  = Some 0%R.
Proof.
  intros Hclass. unfold DoGetChunkSuccessRate.
  replace (WIFI_MOD_CLASS_ERP_OFDM <=? GetModulationClass mode) with false
    by (symmetry; apply Z.leb_gt; exact Hclass).
  reflexivity.
Qed.

Lemma DoGetChunkSuccessRate_unmodeled_witness :
  @DoGetChunkSuccessRate Example.libm Example.env Example.DsssRate1Mbps
    (Example.su 22 Example.DsssRate1Mbps) 100 8000 1 tt 65535
  = Some 0%R.
Proof.
  apply (@DoGetChunkSuccessRate_unmodeled Example.libm Example.env).
  cbn. lia.
Defined.

(** C9: the binary constellation at code rate 1/2 is estimated with
    [(dFree, adFree) = (10, 11)], and the constellation of size 64 at code
    rate 5/6 with [(dFree, adFree, adFreePlusOne) = (4, 14, 69)]. *)
Theorem DoGetChunkSuccessRate_table_rows {libm : Libm} {env : WifiPhyEnv}
    (mode : WifiMode) (txVector : WifiTxVector) (snr : R)
    (nbits numRxAntennas : Z) (field : WifiPpduField) (staId : Z) :
  WIFI_MOD_CLASS_ERP_OFDM <= GetModulationClass mode ->
  (GetConstellationSize mode = 2 ->
   GetCodeRate mode = WIFI_CODE_RATE_1_2 ->
   DoGetChunkSuccessRate mode txVector snr nbits numRxAntennas field staId
   = GetFecBpskBer snr nbits (GetChannelWidth txVector)
       (DoGetChunkSuccessRate_phyRate mode txVector staId) 10 11)
  /\ (GetConstellationSize mode = 64 ->
      GetCodeRate mode = WIFI_CODE_RATE_5_6 ->
      DoGetChunkSuccessRate mode txVector snr nbits numRxAntennas field staId
      = GetFecQamBer snr nbits (GetChannelWidth txVector)
          (DoGetChunkSuccessRate_phyRate mode txVector staId) 64 4 14 69).
Proof.
  intros Hclass. apply Z.leb_le in Hclass.
  split; intros Hsize Hrate; unfold DoGetChunkSuccessRate;
    rewrite Hclass, Hsize, Hrate; reflexivity.
Qed.

Lemma DoGetChunkSuccessRate_table_rows_witness :
  @DoGetChunkSuccessRate Example.libm Example.env Example.OfdmRate6Mbps
    (Example.su 20 Example.OfdmRate6Mbps) 10 1000 1 tt 65535
  = @GetFecBpskBer Example.libm 10 1000 20
      (@DoGetChunkSuccessRate_phyRate Example.env Example.OfdmRate6Mbps
         (Example.su 20 Example.OfdmRate6Mbps) 65535) 10 11
  /\ @DoGetChunkSuccessRate Example.libm Example.env Example.HtMcs7
       (Example.su 20 Example.HtMcs7) 10 1000 1 tt 65535
     = @GetFecQamBer Example.libm 10 1000 20
         (@DoGetChunkSuccessRate_phyRate Example.env Example.HtMcs7
            (Example.su 20 Example.HtMcs7) 65535) 64 4 14 69.
Proof.
  split.
  - apply (@DoGetChunkSuccessRate_table_rows Example.libm Example.env
             Example.OfdmRate6Mbps); [cbn; lia|reflexivity|reflexivity].
  - apply (@DoGetChunkSuccessRate_table_rows Example.libm Example.env
             Example.HtMcs7); [cbn; lia|reflexivity|reflexivity].
Defined.

(** C3, as the code has it: for a mode that is eligible for the coded OFDM
    model and whose constellation size is in the table, every TXVECTOR and
    every non-negative SNR, a call with [nbits = 0] returns exactly [1]; for
    a mode that is not eligible, or whose constellation size is not in the
    table, it returns [0] as for every other bit count. *)
Theorem DoGetChunkSuccessRate_no_bits {libm : Libm} {env : WifiPhyEnv}
    (mode : WifiMode) (txVector : WifiTxVector) (snr : R)
    (numRxAntennas : Z) (field : WifiPpduField) (staId : Z) :
  (0 <= snr)%R ->
  (WIFI_MOD_CLASS_ERP_OFDM <= GetModulationClass mode ->
   in_table (GetConstellationSize mode) ->
   DoGetChunkSuccessRate mode txVector snr 0 numRxAntennas field staId
   = Some 1%R)
  /\ (GetModulationClass mode < WIFI_MOD_CLASS_ERP_OFDM
      \/ ~ in_table (GetConstellationSize mode) ->
      DoGetChunkSuccessRate mode txVector snr 0 numRxAntennas field staId
      = Some 0%R).
Proof.
  intros _. split.
  - intros Hclass Hsize.
    rewrite DoGetChunkSuccessRate_row by assumption. cbv zeta.
    pose proof (DistanceSpectrumTable_bounds (GetConstellationSize mode)
                  (GetCodeRate mode)) as Hb.
    destruct (_ =? 2).
    + apply GetFecBpskBer_no_bits. lia.
    + apply GetFecQamBer_no_bits. lia.
  - intros [Hclass|Hsize].
    + now apply DoGetChunkSuccessRate_ineligible.
    + now apply DoGetChunkSuccessRate_off_table.
Qed.

Lemma DoGetChunkSuccessRate_no_bits_witness :
  @DoGetChunkSuccessRate Example.libm Example.env Example.OfdmRate54Mbps
    (Example.su 20 Example.OfdmRate54Mbps) 2 0 1 tt 65535
  = Some 1%R.
Proof.
  apply (@DoGetChunkSuccessRate_no_bits Example.libm Example.env
           Example.OfdmRate54Mbps (Example.su 20 Example.OfdmRate54Mbps)
           2 1 tt 65535).
  - lra.
  - cbn. lia.
  - cbn. tauto.
Defined.

(** C3 fails on the modes that are not eligible: the DSSS mode gets [0] for
    an empty chunk as for any other. *)
Lemma DoGetChunkSuccessRate_no_bits_unmodeled :
  @DoGetChunkSuccessRate Example.libm Example.env Example.DsssRate1Mbps
    (Example.su 22 Example.DsssRate1Mbps) 100 0 1 tt 65535
  = Some 0%R
  /\ Some 0%R <> Some 1%R.
Proof.
  split.
  - apply DoGetChunkSuccessRate_ineligible. cbn. lia.
  - intros Heq. injection Heq as Heq. lra.
Qed.

(** C4, as the code has it: when the transmission is multi-user and the
    station is the single-user sentinel, or the mode differs from the mode of
    the TXVECTOR for the station, the PHY rate is the rate of the mode on
    20 MHz if the channel is 40 MHz wide or more, and on the width of the
    channel if it is narrower than 40 MHz; this is the width limited to
    20 MHz unless it lies strictly between 20 and 40 MHz.  In every other
    case the PHY rate is the rate of the mode for the TXVECTOR and the
    station. *)
Theorem DoGetChunkSuccessRate_phyRate_cases {env : WifiPhyEnv}
    (mode : WifiMode) (txVector : WifiTxVector) (staId : Z) :
  (header_rate mode txVector staId ->
   DoGetChunkSuccessRate_phyRate mode txVector staId
   = GetPhyRate mode
       (if Rge_dec (GetChannelWidth txVector) 40 then 20%R
        else GetChannelWidth txVector)
   /\ ((GetChannelWidth txVector <= 20)%R
       \/ (40 <= GetChannelWidth txVector)%R ->
       DoGetChunkSuccessRate_phyRate mode txVector staId
       = GetPhyRate mode (Rmin (GetChannelWidth txVector) 20)))
  /\ (~ header_rate mode txVector staId ->
      DoGetChunkSuccessRate_phyRate mode txVector staId
      = GetPhyRateTx mode txVector staId).
Proof.
  unfold header_rate, DoGetChunkSuccessRate_phyRate.
  destruct (IsMu txVector); cbn [andb];
    destruct (Z.eqb_spec staId SU_STA_ID) as [Hsta|Hsta]; cbn [orb];
    destruct (WifiMode_neq mode (GetMode txVector staId)).
  all: split; intros Hh.
  all: try solve [exfalso; intuition congruence].
  all: try reflexivity.
  all: split; [reflexivity|].
  all: intros Hw; f_equal; unfold Rmin.
  all: destruct (Rge_dec _ 40), (Rle_dec _ 20); lra.
Qed.

Lemma DoGetChunkSuccessRate_phyRate_cases_witness :
  @DoGetChunkSuccessRate_phyRate Example.env Example.OfdmRate6Mbps
    (Example.su 80 Example.HtMcs7) 65535
  = @GetPhyRate Example.env Example.OfdmRate6Mbps (Rmin 80 20)
  /\ @DoGetChunkSuccessRate_phyRate Example.env Example.HtMcs7
       (Example.su 80 Example.HtMcs7) 65535
     = @GetPhyRateTx Example.env Example.HtMcs7
         (Example.su 80 Example.HtMcs7) 65535.
Proof.
  split.
  - apply (@DoGetChunkSuccessRate_phyRate_cases Example.env
             Example.OfdmRate6Mbps (Example.su 80 Example.HtMcs7) 65535).
    + right. reflexivity.
    + right. cbn. lra.
  - apply (@DoGetChunkSuccessRate_phyRate_cases Example.env
             Example.HtMcs7 (Example.su 80 Example.HtMcs7) 65535).
    unfold header_rate. cbn. intros [[Hmu _]|Hneq]; discriminate.
Defined.

(** C4 fails for a width strictly between 20 and 40 MHz: on a channel of
    22 MHz the header rate is the rate of the mode on 22 MHz, not its rate
    on 20 MHz. *)
Lemma DoGetChunkSuccessRate_phyRate_22MHz :
  @header_rate Example.env Example.OfdmRate6Mbps
    (Example.su 22 Example.OfdmRate54Mbps) 65535
  /\ @DoGetChunkSuccessRate_phyRate Example.env Example.OfdmRate6Mbps
       (Example.su 22 Example.OfdmRate54Mbps) 65535
     = 6600000
  /\ @GetPhyRate Example.env Example.OfdmRate6Mbps (Rmin 22 20) = 6000000
  /\ @DoGetChunkSuccessRate_phyRate Example.env Example.OfdmRate6Mbps
       (Example.su 22 Example.OfdmRate54Mbps) 65535
     <> @GetPhyRate Example.env Example.OfdmRate6Mbps (Rmin 22 20).
Proof.
  assert (Hcode :
            @DoGetChunkSuccessRate_phyRate Example.env Example.OfdmRate6Mbps
              (Example.su 22 Example.OfdmRate54Mbps) 65535
            = 6600000).
  { unfold DoGetChunkSuccessRate_phyRate. cbn -[Example.PhyRate Rge_dec].
    destruct (Rge_dec 22 40); [lra|].
    rewrite example_PhyRate. reflexivity. }
  assert (Hclaim :
            @GetPhyRate Example.env Example.OfdmRate6Mbps (Rmin 22 20)
            = 6000000).
  { rewrite Rmin_right by lra. cbn [GetPhyRate Example.env].
    rewrite example_PhyRate. reflexivity. }
  split; [right; reflexivity|].
  split; [exact Hcode|]. split; [exact Hclaim|].
  rewrite Hcode, Hclaim. discriminate.
Qed.

(** C10: when the PHY rate is the rate of the mode on 20 MHz (a header
    rate on a channel of 40 MHz or more), the signal spread is still the
    full width of the channel: the raw bit error rate is computed from
    [EbNo = snr * width * 1e6 / rate20], with the width of the TXVECTOR and
    the rate of the mode on 20 MHz, and the result is the estimate on that
    bit error rate with the coefficients of the table. *)
Theorem DoGetChunkSuccessRate_signal_spread {libm : Libm} {env : WifiPhyEnv}
    (mode : WifiMode) (txVector : WifiTxVector) (snr : R)
    (nbits numRxAntennas : Z) (field : WifiPpduField) (staId : Z) :
  WIFI_MOD_CLASS_ERP_OFDM <= GetModulationClass mode ->
  in_table (GetConstellationSize mode) ->
  header_rate mode txVector staId ->
  (40 <= GetChannelWidth txVector)%R ->
  DoGetChunkSuccessRate_phyRate mode txVector staId = GetPhyRate mode 20
  /\ DoGetChunkSuccessRate mode txVector snr nbits numRxAntennas field staId
     = let c := DistanceSpectrumTable (GetConstellationSize mode)
                  (GetCodeRate mode) in
       let EbNo := (snr * GetChannelWidth txVector * 1e6
                    / IZR (GetPhyRate mode 20))%R in
       if GetConstellationSize mode =? 2 then
         let ber := (0.5 * erfc (sqrt EbNo))%R in
         if Req_dec_T ber 0 then Some 1%R
         else
           pd <- CalculatePd ber (freeDistance c) ;;
           Some ((1 - Rmin (IZR (weight c) * pd) 1) ^ Z.to_nat nbits)%R
       else
         let m := IZR (GetConstellationSize mode) in
         let z := sqrt ((1.5 * log2 m * EbNo) / (m - 1.0))%R in
         let z1 := ((1.0 - 1.0 / sqrt m) * erfc z)%R in
         let ber := ((1 - (1 - z1) ^ 2) / log2 m)%R in
         if Req_dec_T ber 0 then Some 1%R
         else
           pd <- CalculatePd ber (freeDistance c) ;;
           pd' <- CalculatePd ber (wrap32 (freeDistance c + 1)) ;;
           Some ((1 - Rmin (IZR (weight c) * pd
                            + IZR (weightPlusOne c) * pd') 1)
                 ^ Z.to_nat nbits)%R.
Proof.
  intros Hclass Hsize Hh Hw.
  split; [now apply DoGetChunkSuccessRate_phyRate_header|].
  rewrite DoGetChunkSuccessRate_row by assumption.
  rewrite DoGetChunkSuccessRate_phyRate_header by assumption.
  cbv zeta.
  unfold GetFecBpskBer, GetFecQamBer, GetBpskBer, GetQamBer.
  destruct (GetConstellationSize mode =? 2); reflexivity.
Qed.

Lemma DoGetChunkSuccessRate_signal_spread_witness :
  @DoGetChunkSuccessRate_phyRate Example.env Example.OfdmRate6Mbps
    (Example.su 80 Example.HtMcs7) 65535
  = @GetPhyRate Example.env Example.OfdmRate6Mbps 20
  /\ @DoGetChunkSuccessRate Example.libm Example.env Example.OfdmRate6Mbps
       (Example.su 80 Example.HtMcs7) 10 48 1 tt 65535
     = let EbNo := (10 * 80 * 1e6
                    / IZR (@GetPhyRate Example.env Example.OfdmRate6Mbps 20))%R
       in
       let ber := (0.5 * @erfc Example.libm (sqrt EbNo))%R in
       if Req_dec_T ber 0 then Some 1%R
       else
         pd <- CalculatePd ber 10 ;;
         Some ((1 - Rmin (IZR 11 * pd) 1) ^ Z.to_nat 48)%R.
Proof.
  apply (@DoGetChunkSuccessRate_signal_spread Example.libm Example.env
           Example.OfdmRate6Mbps (Example.su 80 Example.HtMcs7)
           10 48 1 tt 65535).
  - cbn. lia.
  - cbn. tauto.
  - right. reflexivity.
  - cbn. lra.
Defined.

(** C2, as the code has it: no call is rejected.  For an eligible mode
    whose constellation size is in the table and whose code rate is not one
    of the rates listed for it, the estimator runs with the coefficients of
    the last row of the constellation, [(5, 8)] for the binary one and
    [(5, 8, 31)] for the others; for an eligible mode whose constellation
    size is not in the table the result is [0]. *)
Theorem DoGetChunkSuccessRate_unlisted {libm : Libm} {env : WifiPhyEnv}
    (mode : WifiMode) (txVector : WifiTxVector) (snr : R)
    (nbits numRxAntennas : Z) (field : WifiPpduField) (staId : Z) :
  WIFI_MOD_CLASS_ERP_OFDM <= GetModulationClass mode ->
  (in_table (GetConstellationSize mode) ->
   listed_rate (GetConstellationSize mode) (GetCodeRate mode) = false ->
   DoGetChunkSuccessRate mode txVector snr nbits numRxAntennas field staId
   = if GetConstellationSize mode =? 2 then
       GetFecBpskBer snr nbits (GetChannelWidth txVector)
         (DoGetChunkSuccessRate_phyRate mode txVector staId) 5 8
     else
       GetFecQamBer snr nbits (GetChannelWidth txVector)
         (DoGetChunkSuccessRate_phyRate mode txVector staId)
         (GetConstellationSize mode) 5 8 31)
  /\ (~ in_table (GetConstellationSize mode) ->
      DoGetChunkSuccessRate mode txVector snr nbits numRxAntennas field staId
      = Some 0%R)
  /\ DoGetChunkSuccessRate mode txVector snr nbits numRxAntennas field staId
     <> None.
Proof.
  intros Hclass. split; [|split].
  - intros Hsize Hrate.
    rewrite DoGetChunkSuccessRate_row by assumption. cbv zeta.
    unfold in_table in Hsize. cbn [In] in Hsize.
    destruct Hsize as [E|[E|[E|[E|[E|[E|[E|[]]]]]]]];
      rewrite <- E in *; unfold listed_rate, DistanceSpectrumTable in *;
      destruct (GetCodeRate mode); cbn in Hrate |- *;
      solve [discriminate Hrate | reflexivity].
  - apply DoGetChunkSuccessRate_off_table.
  - destruct (DoGetChunkSuccessRate_total mode txVector snr nbits
                numRxAntennas field staId) as [p ->].
    discriminate.
Qed.

Lemma DoGetChunkSuccessRate_unlisted_witness :
  @DoGetChunkSuccessRate Example.libm Example.env Example.Bpsk_2_3
    (Example.su 20 Example.Bpsk_2_3) 1 1000 1 tt 65535
  = @GetFecBpskBer Example.libm 1 1000 20
      (@DoGetChunkSuccessRate_phyRate Example.env Example.Bpsk_2_3
         (Example.su 20 Example.Bpsk_2_3) 65535) 5 8
  /\ @DoGetChunkSuccessRate Example.libm Example.env Example.Psk8
       (Example.su 20 Example.Psk8) 1 1000 1 tt 65535
     = Some 0%R.
Proof.
  split.
  - apply (@DoGetChunkSuccessRate_unlisted Example.libm Example.env
             Example.Bpsk_2_3 (Example.su 20 Example.Bpsk_2_3)
             1 1000 1 tt 65535).
    + cbn. lia.
    + cbn. tauto.
    + reflexivity.
  - apply (@DoGetChunkSuccessRate_unlisted Example.libm Example.env
             Example.Psk8 (Example.su 20 Example.Psk8) 1 1000 1 tt 65535).
    + cbn. lia.
    + cbn. intros H.
      repeat (destruct H as [H|H]; [discriminate H|]). exact H.
Defined.

(** C2 fails: a binary mode at code rate 2/3, which the table does not
    list, is answered by the estimator with the coefficients [(5, 8)], and
    an eligible mode with a constellation of size 8, which the table does not
    have, is answered with [0]; neither call is rejected. *)
Lemma DoGetChunkSuccessRate_unlisted_answered :
  listed_rate 2 WIFI_CODE_RATE_2_3 = false
  /\ @DoGetChunkSuccessRate Example.libm Example.env Example.Bpsk_2_3
       (Example.su 20 Example.Bpsk_2_3) 1 1000 1 tt 65535
     = @GetFecBpskBer Example.libm 1 1000 20 8000000 5 8
  /\ @DoGetChunkSuccessRate Example.libm Example.env Example.Bpsk_2_3
       (Example.su 20 Example.Bpsk_2_3) 1 1000 1 tt 65535
     <> None
  /\ ~ in_table 8
  /\ @DoGetChunkSuccessRate Example.libm Example.env Example.Psk8
       (Example.su 20 Example.Psk8) 1 1000 1 tt 65535
     = Some 0%R.
Proof.
  assert (Hcall :
            @DoGetChunkSuccessRate Example.libm Example.env Example.Bpsk_2_3
              (Example.su 20 Example.Bpsk_2_3) 1 1000 1 tt 65535
            = @GetFecBpskBer Example.libm 1 1000 20 8000000 5 8).
  { assert (Hrate :
              @DoGetChunkSuccessRate_phyRate Example.env Example.Bpsk_2_3
                (Example.su 20 Example.Bpsk_2_3) 65535
              = 8000000).
    { unfold DoGetChunkSuccessRate_phyRate. cbn -[Example.PhyRate].
      rewrite example_PhyRate. reflexivity. }
    unfold DoGetChunkSuccessRate. rewrite Hrate. reflexivity. }
  assert (Hoff : ~ in_table 8).
  { cbn. intros H.
      repeat (destruct H as [H|H]; [discriminate H|]). exact H. }
  split; [reflexivity|]. split; [exact Hcall|]. split; [|split].
  - rewrite Hcall.
    destruct (@GetFecBpskBer_total Example.libm 1 1000 20 8000000 5 8
                ltac:(lia)) as [p ->].
    discriminate.
  - exact Hoff.
  - apply DoGetChunkSuccessRate_off_table. exact Hoff.
Qed.

(** C6: for an odd [d], [CalculatePd(ber, d)] is the sum of
    [Binomial(i, ber, d)] for [i] from [(d+1)/2] to [d-1]; for an even [d]
    it is the sum for [i] from [d/2+1] to [d-1] plus
    [0.5 * Binomial(d/2, ber, d)]. *)
Theorem CalculatePd_sums (ber : R) (d : Z) :
  is_uint32 d ->
  (Z.odd d = true ->
   CalculatePd ber d
   = BinomialSum (Z.to_nat (d - (d + 1) / 2)) ber d ((d + 1) / 2))
  /\ (Z.even d = true ->
      CalculatePd ber d
      = (s <- BinomialSum (Z.to_nat (d - (d / 2 + 1))) ber d (d / 2 + 1) ;;
         h <- Binomial (d / 2) ber d ;;
         Some (s + 0.5 * h)%R)).
Proof.
  intros Hd. rewrite CalculatePd_refines by assumption.
  unfold CalculatePd_spec. rewrite <- Z.negb_odd.
  split; intros Hparity.
  - now rewrite Hparity.
  - apply negb_true_iff in Hparity. now rewrite Hparity.
Qed.

Lemma CalculatePd_sums_witness :
  CalculatePd (1 / 100) 5
  = BinomialSum (Z.to_nat (5 - (5 + 1) / 2)) (1 / 100) 5 ((5 + 1) / 2)
  /\ CalculatePd (1 / 100) 10
     = (s <- BinomialSum (Z.to_nat (10 - (10 / 2 + 1))) (1 / 100) 10
              (10 / 2 + 1) ;;
        h <- Binomial (10 / 2) (1 / 100) 10 ;;
        Some (s + 0.5 * h)%R).
Proof.
  split.
  - apply (CalculatePd_sums (1 / 100) 5); [unwrap; lia|reflexivity].
  - apply (CalculatePd_sums (1 / 100) 10); [unwrap; lia|reflexivity].
Defined.

(** C5: on valid inputs (a non-negative SNR, a positive channel width and
    PHY rate, a bit count, the coefficients of a supported scheme) the
    probability returned by [GetFecBpskBer], by [GetFecQamBer] and by
    [DoGetChunkSuccessRate] lies in [[0,1]]. *)
Theorem success_rate_in_unit_interval
    {libm : Libm} {libm_spec : LibmSpec} {env : WifiPhyEnv} :
  (forall (snr : R) (nbits : Z) (signalSpread : R)
          (phyRate dFree adFree : Z),
      (0 <= snr)%R -> (0 < signalSpread)%R -> 0 < phyRate -> 0 <= nbits ->
      0 <= dFree <= 12 -> 0 <= adFree ->
      exists pms : R,
        GetFecBpskBer snr nbits signalSpread phyRate dFree adFree = Some pms
        /\ (0 <= pms <= 1)%R)
  /\ (forall (snr : R) (nbits : Z) (signalSpread : R)
             (phyRate m dFree adFree adFreePlusOne : Z),
         (0 <= snr)%R -> (0 < signalSpread)%R -> 0 < phyRate ->
         0 <= nbits -> 2 <= m ->
         0 <= dFree <= 11 -> 0 <= adFree -> 0 <= adFreePlusOne ->
         exists pms : R,
           GetFecQamBer snr nbits signalSpread phyRate m dFree adFree
             adFreePlusOne = Some pms
           /\ (0 <= pms <= 1)%R)
  /\ (forall (mode : WifiMode) (txVector : WifiTxVector) (snr : R)
             (nbits numRxAntennas : Z) (field : WifiPpduField) (staId : Z),
         (0 <= snr)%R -> (0 < GetChannelWidth txVector)%R ->
         0 < DoGetChunkSuccessRate_phyRate mode txVector staId ->
         0 <= nbits ->
         exists p : R,
           DoGetChunkSuccessRate mode txVector snr nbits numRxAntennas field
             staId = Some p
           /\ (0 <= p <= 1)%R).
Proof.
  split; [|split].
  - intros snr nbits signalSpread phyRate dFree adFree _ _ _ _ Hd Ha.
    now apply GetFecBpskBer_range.
  - intros snr nbits signalSpread phyRate m dFree adFree adFreePlusOne
      _ _ _ _ Hm Hd Ha Hb.
    now apply GetFecQamBer_range.
  - intros mode txVector snr nbits numRxAntennas field staId _ _ _ _.
    destruct (Z.lt_ge_cases (GetModulationClass mode)
                WIFI_MOD_CLASS_ERP_OFDM) as [Hclass|Hclass].
    { rewrite DoGetChunkSuccessRate_ineligible by assumption.
      exists 0%R. split; [reflexivity|lra]. }
    destruct (in_table_dec (GetConstellationSize mode)) as [Hsize|Hsize].
    + rewrite DoGetChunkSuccessRate_row by assumption. cbv zeta.
      pose proof (DistanceSpectrumTable_bounds (GetConstellationSize mode)
                    (GetCodeRate mode)) as Hb.
      destruct (Z.eqb_spec (GetConstellationSize mode) 2) as [Hbin|Hbin].
      * apply GetFecBpskBer_range; lia.
      * apply GetFecQamBer_range; try lia.
        unfold in_table in Hsize. cbn [In] in Hsize. lia.
    + rewrite DoGetChunkSuccessRate_off_table by assumption.
      exists 0%R. split; [reflexivity|lra].
Qed.

Lemma success_rate_in_unit_interval_witness :
  (exists pms : R,
      @GetFecBpskBer Example.libm 10 1000 20 6000000 10 11 = Some pms
      /\ (0 <= pms <= 1)%R)
  /\ (exists pms : R,
         @GetFecQamBer Example.libm 10 1000 20 54000000 64 5 8 31 = Some pms
         /\ (0 <= pms <= 1)%R)
  /\ (exists p : R,
         @DoGetChunkSuccessRate Example.libm Example.env
           Example.OfdmRate6Mbps (Example.su 20 Example.OfdmRate6Mbps)
           10 1000 1 tt 65535 = Some p
         /\ (0 <= p <= 1)%R).
Proof.
  destruct (@success_rate_in_unit_interval Example.libm example_libm_spec
              Example.env) as [Hbpsk [Hqam Hchunk]].
  split; [|split].
  - apply Hbpsk; lra || lia.
  - apply Hqam; lra || lia.
  - apply Hchunk; try lra; try lia.
    + cbn. lra.
    + unfold DoGetChunkSuccessRate_phyRate. cbn -[Example.PhyRate].
      rewrite example_PhyRate. reflexivity.
Defined.

(** C7: when the raw bit error rate of the call is exactly [0],
    [GetFecBpskBer] and [GetFecQamBer] return exactly [1] whatever the
    coefficients and the bit count, without dividing and without running the
    estimator; so does [DoGetChunkSuccessRate] for every scheme of the
    table. *)
Theorem perfect_channel {libm : Libm} {env : WifiPhyEnv} :
  (forall (snr : R) (nbits : Z) (signalSpread : R)
          (phyRate dFree adFree : Z),
      GetBpskBer snr signalSpread phyRate = 0%R ->
      GetFecBpskBer snr nbits signalSpread phyRate dFree adFree = Some 1%R)
  /\ (forall (snr : R) (nbits : Z) (signalSpread : R)
             (phyRate m dFree adFree adFreePlusOne : Z),
         GetQamBer snr m signalSpread phyRate = 0%R ->
         GetFecQamBer snr nbits signalSpread phyRate m dFree adFree
           adFreePlusOne = Some 1%R)
  /\ (forall (mode : WifiMode) (txVector : WifiTxVector) (snr : R)
             (nbits numRxAntennas : Z) (field : WifiPpduField) (staId : Z),
         WIFI_MOD_CLASS_ERP_OFDM <= GetModulationClass mode ->
         in_table (GetConstellationSize mode) ->
         (if GetConstellationSize mode =? 2 then
            GetBpskBer snr (GetChannelWidth txVector)
              (DoGetChunkSuccessRate_phyRate mode txVector staId)
          else
            GetQamBer snr (GetConstellationSize mode)
              (GetChannelWidth txVector)
              (DoGetChunkSuccessRate_phyRate mode txVector staId)) = 0%R ->
         DoGetChunkSuccessRate mode txVector snr nbits numRxAntennas field
           staId = Some 1%R).
Proof.
  split; [|split].
  - intros. now apply GetFecBpskBer_perfect.
  - intros. now apply GetFecQamBer_perfect.
  - intros mode txVector snr nbits numRxAntennas field staId Hclass Hsize.
    rewrite DoGetChunkSuccessRate_row by assumption. cbv zeta.
    destruct (_ =? 2); intros Hber.
    + now apply GetFecBpskBer_perfect.
    + now apply GetFecQamBer_perfect.
Qed.

Lemma perfect_channel_witness :
  @GetFecBpskBer Example.libm 1 1000 20 6000000 10 11 = Some 1%R
  /\ @GetFecQamBer Example.libm 1000 1000 20 54000000 64 5 8 31 = Some 1%R
  /\ @DoGetChunkSuccessRate Example.libm Example.env Example.OfdmRate6Mbps
       (Example.su 20 Example.OfdmRate6Mbps) 1 1000 1 tt 65535
     = Some 1%R.
Proof.
  destruct (@perfect_channel Example.libm Example.env)
    as [Hbpsk [Hqam Hchunk]].
  split; [|split].
  - apply Hbpsk. apply example_GetBpskBer_zero. lra.
  - apply Hqam. apply example_GetQamBer_zero; [lia|lra].
  - apply Hchunk.
    + cbn. lia.
    + cbn. tauto.
    + assert (Hrate :
                @DoGetChunkSuccessRate_phyRate Example.env
                  Example.OfdmRate6Mbps
                  (Example.su 20 Example.OfdmRate6Mbps) 65535
                = 6000000).
      { unfold DoGetChunkSuccessRate_phyRate. cbn -[Example.PhyRate].
        rewrite example_PhyRate. reflexivity. }
      rewrite Hrate. cbn -[GetBpskBer].
      apply example_GetBpskBer_zero. lra.
Defined.

(** * Further properties of the model *)

(** ** 32-bit factorials and the division of [Binomial] *)

(** X1: [Factorial(k)] is [k!] modulo [2^32]; from [k = 34] on it is [0]. *)
Theorem Factorial_modulo (k : Z) :
  0 <= k ->
  Factorial k = Zfact (Z.to_nat k) mod 2 ^ 32
  /\ (34 <= k -> Factorial k = 0).
Proof.
  intros Hk. split.
  - now apply Factorial_Zfact.
  - apply Factorial_vanishes.
Qed.

Lemma Factorial_modulo_witness :
  Factorial 40 = Zfact (Z.to_nat 40) mod 2 ^ 32
  /\ (34 <= 40 -> Factorial 40 = 0).
Proof. apply Factorial_modulo. lia. Defined.

Lemma Binomial_None_iff (k n : Z) (p : R) :
  Binomial k p n = None
  <-> wrap32 (Factorial k * Factorial (wrap32 (n - k))) = 0.
Proof.
  unfold Binomial.
  destruct (Z.eqb_spec (wrap32 (Factorial k * Factorial (wrap32 (n - k)))) 0)
    as [E|E]; split; intros Hn; try assumption; try reflexivity.
  - discriminate.
  - contradiction.
Qed.

(** X2: for [k <= n], [Binomial(k, p, n)] divides by zero exactly when
    [k! * (n-k)!] is a multiple of [2^32]; this is the case as soon as [k] or
    [n - k] is [34] or more. *)
Theorem Binomial_division_by_zero (k n : Z) (p : R) :
  0 <= k <= n -> n < 2 ^ 32 ->
  (Binomial k p n = None
   <-> (Zfact (Z.to_nat k) * Zfact (Z.to_nat (n - k))) mod 2 ^ 32 = 0)
  /\ (34 <= k \/ 34 <= n - k -> Binomial k p n = None).
Proof.
  intros Hk Hn.
  assert (Hw : wrap32 (n - k) = n - k) by (apply wrap32_small; unwrap; lia).
  split.
  - rewrite Binomial_None_iff, Hw.
    rewrite !Factorial_Zfact by lia.
    unfold wrap32. rewrite <- Z.mul_mod by discriminate. reflexivity.
  - intros [Hbig|Hbig].
    + now apply Binomial_aborts_l.
    + apply Binomial_aborts_r. now rewrite Hw.
Qed.

Lemma Binomial_division_by_zero_witness :
  (Binomial 34 (1 / 2) 40 = None
   <-> (Zfact (Z.to_nat 34) * Zfact (Z.to_nat (40 - 34))) mod 2 ^ 32 = 0)
  /\ (34 <= 34 \/ 34 <= 40 - 34 -> Binomial 34 (1 / 2) 40 = None).
Proof. apply Binomial_division_by_zero; [lia|reflexivity]. Defined.

(** ** Raw bit error rates at a null SNR *)

Lemma inv_sqrt_sqr (x : R) :
  (0 < x)%R -> (/ sqrt x * / sqrt x = / x)%R.
Proof.
  intros Hx.
  assert (Hs : (0 < sqrt x)%R) by now apply sqrt_lt_R0.
  rewrite <- Rinv_mult. f_equal. apply sqrt_sqrt. lra.
Qed.

Lemma GetBpskBer_null_snr {libm : Libm} (signalSpread : R) (phyRate : Z) :
  erfc 0 = 1%R -> GetBpskBer 0 signalSpread phyRate = (1 / 2)%R.
Proof.
  intros Herfc. unfold GetBpskBer.
  replace (0 * signalSpread * 1e6 / IZR phyRate)%R with 0%R
    by (unfold Rdiv; ring).
  rewrite sqrt_0, Herfc. lra.
Qed.

Lemma GetQamBer_null_snr {libm : Libm} (m : Z) (signalSpread : R)
    (phyRate : Z) :
  erfc 0 = 1%R -> 2 <= m ->
  GetQamBer 0 m signalSpread phyRate = ((1 - / IZR m) / log2 (IZR m))%R.
Proof.
  intros Herfc Hm. unfold GetQamBer.
  assert (HmR : (2 <= IZR m)%R) by now apply IZR_le.
  replace (1.5 * log2 (IZR m) * (0 * signalSpread * 1e6 / IZR phyRate)
           / (IZR m - 1.0))%R with 0%R by (unfold Rdiv; ring).
  rewrite sqrt_0, Herfc. f_equal.
  rewrite <- (inv_sqrt_sqr (IZR m)) by lra.
  cbn [pow]. unfold Rdiv. replace 1.0%R with 1%R by lra. ring.
Qed.

Lemma GetQamBer_null_snr_pos {libm : Libm} (m : Z) (signalSpread : R)
    (phyRate : Z) :
  erfc 0 = 1%R -> 2 <= m ->
  (0 < GetQamBer 0 m signalSpread phyRate)%R.
Proof.
  intros Herfc Hm. rewrite GetQamBer_null_snr by assumption.
  assert (HmR : (2 <= IZR m)%R) by now apply IZR_le.
  pose proof (log2_ge_1 _ HmR) as Hl.
  assert (Him : (/ IZR m <= / 2)%R) by (apply Rinv_le_contravar; lra).
  apply Rdiv_lt_0_compat; lra.
Qed.

Lemma example_erfc_0 : @erfc Example.libm 0 = 1%R.
Proof.
  cbn [erfc Example.libm]. rewrite Rminus_0_r. apply Rmax_right. lra.
Qed.

(** ** Distances beyond the reach of 32-bit factorials *)

Lemma BinomialSum_aborts (ber : R) (d : Z) :
  forall (count : nat) (i j : Z),
    i <= j < i + Z.of_nat count ->
    Binomial j ber d = None ->
    BinomialSum count ber d i = None.
Proof.
  induction count as [|count IH]; intros i j Hj Hnone; [lia|].
  cbn [BinomialSum].
  destruct (Z.eq_dec i j) as [->|Hne].
  - now rewrite Hnone.
  - destruct (Binomial i ber d); [|reflexivity].
    rewrite bind_Some, (IH (i + 1) j) by (assumption || lia).
    reflexivity.
Qed.

Lemma CalculatePd_aborts (ber : R) (d : Z) :
  35 <= d < 2 ^ 32 -> CalculatePd ber d = None.
Proof.
  intros Hd.
  assert (Hlast : Binomial (d - 1) ber d = None)
    by (apply Binomial_aborts_l; lia).
  rewrite CalculatePd_refines by (unwrap; lia).
  unfold CalculatePd_spec. destruct (Z.odd d).
  - apply (BinomialSum_aborts ber d _ _ (d - 1)); [lia|assumption].
  - rewrite (BinomialSum_aborts ber d _ _ (d - 1)); [reflexivity|lia|assumption].
Qed.

(** X3: a distance of [35] or more is out of reach.  [CalculatePd] then
    divides by zero (the term of index [d - 1] needs [(d-1)!], which is [0]
    in 32 bits), and so do [GetFecBpskBer] for [dFree >= 35] and
    [GetFecQamBer] for [dFree >= 34], unless the raw bit error rate is [0]
    and they return before the sum. *)
Theorem distance_out_of_reach {libm : Libm} :
  (forall (ber : R) (d : Z), 35 <= d < 2 ^ 32 -> CalculatePd ber d = None)
  /\ (forall (snr : R) (nbits : Z) (signalSpread : R)
             (phyRate dFree adFree : Z),
         GetBpskBer snr signalSpread phyRate <> 0%R ->
         35 <= dFree < 2 ^ 32 ->
         GetFecBpskBer snr nbits signalSpread phyRate dFree adFree = None)
  /\ (forall (snr : R) (nbits : Z) (signalSpread : R)
             (phyRate m dFree adFree adFreePlusOne : Z),
         GetQamBer snr m signalSpread phyRate <> 0%R ->
         34 <= dFree < 2 ^ 32 ->
         GetFecQamBer snr nbits signalSpread phyRate m dFree adFree
           adFreePlusOne = None).
Proof.
  split; [|split].
  - apply CalculatePd_aborts.
  - intros snr nbits signalSpread phyRate dFree adFree Hber Hd.
    unfold GetFecBpskBer.
    destruct (Req_dec_T _ 0) as [E|_]; [contradiction|].
    now rewrite CalculatePd_aborts.
  - intros snr nbits signalSpread phyRate m dFree adFree adFreePlusOne
      Hber Hd.
    unfold GetFecQamBer.
    destruct (Req_dec_T _ 0) as [E|_]; [contradiction|].
    destruct (Z.eq_dec dFree 34) as [->|Hne].
    + destruct (CalculatePd _ 34); [|reflexivity].
      rewrite bind_Some.
      replace (wrap32 (34 + 1)) with 35 by reflexivity.
      rewrite CalculatePd_aborts; [reflexivity|split; [lia|reflexivity]].
    + rewrite CalculatePd_aborts by lia. reflexivity.
Qed.

Lemma distance_out_of_reach_witness :
  CalculatePd (1 / 2) 35 = None
  /\ @GetFecBpskBer Example.libm 0 1000 20 6000000 35 1 = None
  /\ @GetFecQamBer Example.libm 0 1000 20 12000000 4 34 1 1 = None.
Proof.
  destruct (@distance_out_of_reach Example.libm) as [Hpd [Hbpsk Hqam]].
  split; [|split].
  - apply Hpd. split; [lia|reflexivity].
  - apply Hbpsk.
    + rewrite GetBpskBer_null_snr by apply example_erfc_0. lra.
    + split; [lia|reflexivity].
  - apply Hqam.
    + apply Rgt_not_eq, Rlt_gt, GetQamBer_null_snr_pos;
        [apply example_erfc_0|lia].
    + split; [lia|reflexivity].
Defined.

(** ** Raw bit error rates *)





(** ** The bit count *)

Lemma pow_unit_interval (q : R) (n : nat) :
  (0 <= q <= 1)%R -> (0 <= q ^ n <= 1)%R.
Proof.
  intros Hq. split.
  - apply pow_le. lra.
  - apply Rle_trans with (1 ^ n)%R.
    + apply pow_incr. lra.
    + rewrite pow1. lra.
Qed.

Lemma pow_decreasing (q : R) (n n' : nat) :
  (0 <= q <= 1)%R -> (n <= n')%nat -> (q ^ n' <= q ^ n)%R.
Proof.
  intros Hq Hn.
  replace n' with (n + (n' - n))%nat by lia.
  rewrite pow_add.
  pose proof (pow_unit_interval q n Hq) as H1.
  pose proof (pow_unit_interval q (n' - n) Hq) as H2.
  nra.
Qed.

(** Both estimators raise a success probability per bit to the number of
    bits. *)
Lemma GetFecBpskBer_per_bit {libm : Libm} (snr signalSpread : R)
    (phyRate dFree adFree : Z) :
  0 <= dFree <= 12 ->
  exists q : R,
    (forall nbits : Z,
        GetFecBpskBer snr nbits signalSpread phyRate dFree adFree
        = Some (q ^ Z.to_nat nbits)%R)
    /\ (@LibmSpec libm -> 0 <= adFree -> (0 <= q <= 1)%R).
Proof.
  intros Hd. unfold GetFecBpskBer.
  destruct (Req_dec_T _ 0) as [_|_].
  - exists 1%R. split; [|lra]. intros nbits. now rewrite pow1.
  - destruct (CalculatePd_total (GetBpskBer snr signalSpread phyRate)
                dFree Hd) as [pd Hpd].
    rewrite Hpd. eexists. split; [reflexivity|].
    intros Hspec Ha.
    pose proof (GetBpskBer_range snr signalSpread phyRate) as Hber.
    apply CalculatePd_nonneg in Hpd; [|unwrap; lia|assumption].
    assert (Hpmu : (0 <= IZR adFree * pd)%R)
      by (apply Rmult_le_pos; [now apply IZR_le|assumption]).
    unfold Rmin. destruct (Rle_dec _ 1); lra.
Qed.

Lemma GetFecQamBer_per_bit {libm : Libm} (snr signalSpread : R)
    (phyRate m dFree adFree adFreePlusOne : Z) :
  0 <= dFree <= 11 ->
  exists q : R,
    (forall nbits : Z,
        GetFecQamBer snr nbits signalSpread phyRate m dFree adFree
          adFreePlusOne
        = Some (q ^ Z.to_nat nbits)%R)
    /\ (@LibmSpec libm -> 2 <= m -> 0 <= adFree -> 0 <= adFreePlusOne ->
        (0 <= q <= 1)%R).
Proof.
  intros Hd. unfold GetFecQamBer.
  destruct (Req_dec_T _ 0) as [_|_].
  - exists 1%R. split; [|lra]. intros nbits. now rewrite pow1.
  - set (ber := GetQamBer snr m signalSpread phyRate).
    rewrite (wrap32_small (dFree + 1)) by (unwrap; lia).
    destruct (CalculatePd_total ber dFree ltac:(lia)) as [pd Hpd].
    destruct (CalculatePd_total ber (dFree + 1) ltac:(lia)) as [pd' Hpd'].
    rewrite Hpd, Hpd'. eexists. split; [reflexivity|].
    intros Hspec Hm Ha Hb.
    pose proof (GetQamBer_range snr m signalSpread phyRate Hm) as Hber.
    apply CalculatePd_nonneg in Hpd; [|unwrap; lia|assumption].
    apply CalculatePd_nonneg in Hpd'; [|unwrap; lia|assumption].
    assert (Hpmu : (0 <= IZR adFree * pd + IZR adFreePlusOne * pd')%R).
    { apply Rplus_le_le_0_compat; apply Rmult_le_pos;
        solve [now apply IZR_le | assumption]. }
    unfold Rmin. destruct (Rle_dec _ 1); lra.
Qed.

(** The result of [DoGetChunkSuccessRate] is [0] for every bit count, or a
    success probability per bit raised to the number of bits. *)
Lemma DoGetChunkSuccessRate_shape {libm : Libm} {env : WifiPhyEnv}
    (mode : WifiMode) (txVector : WifiTxVector) (snr : R) (staId : Z) :
  (forall (nbits numRxAntennas : Z) (field : WifiPpduField),
      DoGetChunkSuccessRate mode txVector snr nbits numRxAntennas field staId
      = Some 0%R)
  \/ (exists q : R,
         (forall (nbits numRxAntennas : Z) (field : WifiPpduField),
             DoGetChunkSuccessRate mode txVector snr nbits numRxAntennas
               field staId
             = Some (q ^ Z.to_nat nbits)%R)
         /\ (@LibmSpec libm -> (0 <= q <= 1)%R)).
Proof.
  destruct (Z.lt_ge_cases (GetModulationClass mode) WIFI_MOD_CLASS_ERP_OFDM)
    as [Hclass|Hclass].
  { left. intros. now apply DoGetChunkSuccessRate_ineligible. }
  destruct (in_table_dec (GetConstellationSize mode)) as [Hsize|Hsize].
  2:{ left. intros. now apply DoGetChunkSuccessRate_off_table. }
  right.
  pose proof (DistanceSpectrumTable_bounds (GetConstellationSize mode)
                (GetCodeRate mode)) as Hb.
  destruct (Z.eqb_spec (GetConstellationSize mode) 2) as [Hbin|Hbin].
  - destruct (GetFecBpskBer_per_bit snr (GetChannelWidth txVector)
                (DoGetChunkSuccessRate_phyRate mode txVector staId)
                (freeDistance (DistanceSpectrumTable
                                 (GetConstellationSize mode)
                                 (GetCodeRate mode)))
                (weight (DistanceSpectrumTable
                           (GetConstellationSize mode)
                           (GetCodeRate mode)))
                ltac:(lia)) as [q [Hq Hrange]].
    exists q. split.
    + intros. rewrite DoGetChunkSuccessRate_row by assumption. cbv zeta.
      apply Z.eqb_eq in Hbin. rewrite Hbin. apply Hq.
    + intros Hspec. apply Hrange; [assumption|lia].
  - destruct (GetFecQamBer_per_bit snr (GetChannelWidth txVector)
                (DoGetChunkSuccessRate_phyRate mode txVector staId)
                (GetConstellationSize mode)
                (freeDistance (DistanceSpectrumTable
                                 (GetConstellationSize mode)
                                 (GetCodeRate mode)))
                (weight (DistanceSpectrumTable
                           (GetConstellationSize mode)
                           (GetCodeRate mode)))
                (weightPlusOne (DistanceSpectrumTable
                                  (GetConstellationSize mode)
                                  (GetCodeRate mode)))
                ltac:(lia)) as [q [Hq Hrange]].
    exists q. split.
    + intros. rewrite DoGetChunkSuccessRate_row by assumption. cbv zeta.
      apply Z.eqb_neq in Hbin. rewrite Hbin. apply Hq.
    + intros Hspec. apply Hrange; try assumption; try lia.
      unfold in_table in Hsize. cbn [In] in Hsize. lia.
Qed.

(** X5: on valid inputs (a non-negative SNR, a positive channel width and
    PHY rate), for a given mode, TXVECTOR, SNR and station, the success rate
    does not increase with the number of bits. *)
Theorem DoGetChunkSuccessRate_decreasing
    {libm : Libm} {libm_spec : LibmSpec} {env : WifiPhyEnv}
    (mode : WifiMode) (txVector : WifiTxVector) (snr : R)
    (nbits nbits' numRxAntennas : Z) (field : WifiPpduField) (staId : Z) :
  (0 <= snr)%R -> (0 < GetChannelWidth txVector)%R ->
  0 < DoGetChunkSuccessRate_phyRate mode txVector staId ->
  0 <= nbits <= nbits' ->
  exists p p' : R,
    DoGetChunkSuccessRate mode txVector snr nbits numRxAntennas field staId
    = Some p
    /\ DoGetChunkSuccessRate mode txVector snr nbits' numRxAntennas field
         staId
       = Some p'
    /\ (p' <= p)%R.
Proof.
  intros _ _ _ Hn.
  destruct (DoGetChunkSuccessRate_shape mode txVector snr staId)
    as [Hzero|[q [Hq Hrange]]].
  - exists 0%R, 0%R. rewrite !Hzero. repeat split; lra.
  - exists (q ^ Z.to_nat nbits)%R, (q ^ Z.to_nat nbits')%R.
    rewrite !Hq. repeat split.
    apply pow_decreasing; [now apply Hrange|lia].
Qed.

Lemma DoGetChunkSuccessRate_decreasing_witness :
  exists p p' : R,
    @DoGetChunkSuccessRate Example.libm Example.env Example.OfdmRate6Mbps
      (Example.su 20 Example.OfdmRate6Mbps) (1 / 10) 100 1 tt 65535
    = Some p
    /\ @DoGetChunkSuccessRate Example.libm Example.env Example.OfdmRate6Mbps
         (Example.su 20 Example.OfdmRate6Mbps) (1 / 10) 8000 1 tt 65535
       = Some p'
    /\ (p' <= p)%R.
Proof.
  apply (@DoGetChunkSuccessRate_decreasing Example.libm example_libm_spec
           Example.env).
  - lra.
  - cbn. lra.
  - unfold DoGetChunkSuccessRate_phyRate. cbn -[Example.PhyRate].
    rewrite example_PhyRate. reflexivity.
  - lia.
Defined.

(** ** The second term of the union bound *)

(** X9: with a second weight of [0], [GetFecQamBer] is the single-term
    estimate on the raw bit error rate of the constellation: the pairwise
    error probability at [dFree + 1] is computed but does not count. *)
Theorem GetFecQamBer_single_term {libm : Libm} (snr : R) (nbits : Z)
    (signalSpread : R) (phyRate m dFree adFree : Z) :
  0 <= dFree <= 11 ->
  GetFecQamBer snr nbits signalSpread phyRate m dFree adFree 0
  = if Req_dec_T (GetQamBer snr m signalSpread phyRate) 0 then Some 1%R
    else
      pd <- CalculatePd (GetQamBer snr m signalSpread phyRate) dFree ;;
      Some ((1 - Rmin (IZR adFree * pd) 1) ^ Z.to_nat nbits)%R.
Proof.
  intros Hd. unfold GetFecQamBer.
  destruct (Req_dec_T _ 0) as [_|_]; [reflexivity|].
  rewrite (wrap32_small (dFree + 1)) by (unwrap; lia).
  destruct (CalculatePd _ dFree) as [pd|]; [|reflexivity].
  destruct (CalculatePd_total (GetQamBer snr m signalSpread phyRate)
              (dFree + 1) ltac:(lia)) as [pd' ->].
  cbn [bind]. do 4 f_equal. ring.
Qed.

Lemma GetFecQamBer_single_term_witness :
  @GetFecQamBer Example.libm 10 1000 20 12000000 4 10 11 0
  = if Req_dec_T (@GetQamBer Example.libm 10 4 20 12000000) 0
    then Some 1%R
    else
      pd <- CalculatePd (@GetQamBer Example.libm 10 4 20 12000000) 10 ;;
      Some ((1 - Rmin (IZR 11 * pd) 1) ^ Z.to_nat 1000)%R.
Proof. apply (@GetFecQamBer_single_term Example.libm). lia. Defined.

(** ** The whole table *)

(** X11: for every eligible mode whose constellation size is in the table,
    the dispatch calls the estimator of its constellation with the
    coefficients of the row of its constellation size and code rate, the
    width of the channel as signal spread and the selected PHY rate. *)
Theorem DoGetChunkSuccessRate_whole_table {libm : Libm} {env : WifiPhyEnv}
    (mode : WifiMode) (txVector : WifiTxVector) (snr : R)
    (nbits numRxAntennas : Z) (field : WifiPpduField) (staId : Z) :
  WIFI_MOD_CLASS_ERP_OFDM <= GetModulationClass mode ->
  in_table (GetConstellationSize mode) ->
  DoGetChunkSuccessRate mode txVector snr nbits numRxAntennas field staId
  = let c := DistanceSpectrumTable (GetConstellationSize mode)
               (GetCodeRate mode) in
    if GetConstellationSize mode =? 2 then
      GetFecBpskBer snr nbits (GetChannelWidth txVector)
        (DoGetChunkSuccessRate_phyRate mode txVector staId)
        (freeDistance c) (weight c)
    else
      GetFecQamBer snr nbits (GetChannelWidth txVector)
        (DoGetChunkSuccessRate_phyRate mode txVector staId)
        (GetConstellationSize mode)
        (freeDistance c) (weight c) (weightPlusOne c).
Proof.
  intros Hclass Hsize.
  unfold DoGetChunkSuccessRate.
  apply Z.leb_le in Hclass. rewrite Hclass.
  unfold in_table in Hsize. cbn [In] in Hsize.
  destruct Hsize as [E|[E|[E|[E|[E|[E|[E|[]]]]]]]];
    rewrite <- E; unfold DistanceSpectrumTable;
    cbn [Z.eqb Pos.eqb orb]; destruct (GetCodeRate mode); reflexivity.
Qed.

Lemma DoGetChunkSuccessRate_whole_table_witness :
  @DoGetChunkSuccessRate Example.libm Example.env Example.OfdmRate54Mbps
    (Example.su 20 Example.OfdmRate54Mbps) 100 8000 1 tt 65535
  = @GetFecQamBer Example.libm 100 8000 20
      (@DoGetChunkSuccessRate_phyRate Example.env Example.OfdmRate54Mbps
         (Example.su 20 Example.OfdmRate54Mbps) 65535)
      64 5 8 31.
Proof.
  apply (@DoGetChunkSuccessRate_whole_table Example.libm Example.env
           Example.OfdmRate54Mbps (Example.su 20 Example.OfdmRate54Mbps)).
  - cbn. lia.
  - cbn. tauto.
Defined.

(** ** Binary modulation at a null SNR *)

Lemma CalculatePd_half_5 : CalculatePd (1 / 2) 5 = Some (15 / 32)%R.
Proof.
  rewrite CalculatePd_refines by (unwrap; lia).
  unfold CalculatePd_spec.
  change (Z.odd 5) with true. cbv iota.
  change (Z.to_nat (5 - (5 + 1) / 2)) with 2%nat.
  change ((5 + 1) / 2) with 3.
  cbn [BinomialSum]. change (3 + 1) with 4.
  rewrite !Binomial_exact by lia.
  cbn [bind]. unfold Binomial_spec.
  change (choose (Z.to_nat 5) (Z.to_nat 3)) with 10%nat.
  change (choose (Z.to_nat 5) (Z.to_nat 4)) with 5%nat.
  rewrite !INR_IZR_INZ.
  cbv -[Rplus Rmult Rdiv Rinv Rminus IZR].
  f_equal. lra.
Qed.

Lemma CalculatePd_half_10 : CalculatePd (1 / 2) 10 = Some (511 / 1024)%R.
Proof.
  rewrite CalculatePd_refines by (unwrap; lia).
  unfold CalculatePd_spec.
  change (Z.odd 10) with false. cbv iota.
  change (Z.to_nat (10 - (10 / 2 + 1))) with 4%nat.
  change (10 / 2 + 1) with 6. change (10 / 2) with 5.
  cbn [BinomialSum].
  change (6 + 1) with 7. change (7 + 1) with 8. change (8 + 1) with 9.
  rewrite !Binomial_exact by lia.
  cbn [bind]. unfold Binomial_spec.
  change (choose (Z.to_nat 10) (Z.to_nat 6)) with 210%nat.
  change (choose (Z.to_nat 10) (Z.to_nat 7)) with 120%nat.
  change (choose (Z.to_nat 10) (Z.to_nat 8)) with 45%nat.
  change (choose (Z.to_nat 10) (Z.to_nat 9)) with 10%nat.
  change (choose (Z.to_nat 10) (Z.to_nat 5)) with 252%nat.
  rewrite !INR_IZR_INZ.
  cbv -[Rplus Rmult Rdiv Rinv Rminus IZR].
  f_equal. lra.
Qed.

Lemma saturated (pmu : R) (nbits : Z) :
  (1 <= pmu)%R -> 0 < nbits ->
  ((1 - Rmin pmu 1) ^ Z.to_nat nbits = 0)%R.
Proof.
  intros Hp Hn. rewrite Rmin_right by assumption.
  replace (1 - 1)%R with 0%R by ring.
  apply pow_i. lia.
Qed.

(** X10: at a null SNR a chunk of at least one bit sent with the binary
    modulation has a success rate of exactly [0], at both code rates: the
    raw bit error rate is [1/2] and the bound on the error probability of a
    bit saturates at [1]. *)
Theorem binary_chunk_at_null_snr {libm : Libm} {env : WifiPhyEnv}
    (mode : WifiMode) (txVector : WifiTxVector)
    (nbits numRxAntennas : Z) (field : WifiPpduField) (staId : Z) :
  erfc 0 = 1%R ->
  WIFI_MOD_CLASS_ERP_OFDM <= GetModulationClass mode ->
  GetConstellationSize mode = 2 ->
  0 < DoGetChunkSuccessRate_phyRate mode txVector staId ->
  0 < nbits ->
  DoGetChunkSuccessRate mode txVector 0 nbits numRxAntennas field staId
  = Some 0%R.
Proof.
  intros Herfc Hclass Hsize _ Hn.
  rewrite DoGetChunkSuccessRate_row
    by (assumption || (rewrite Hsize; cbn; tauto)).
  cbv zeta. rewrite Hsize. cbn [Z.eqb Pos.eqb].
  unfold GetFecBpskBer, DistanceSpectrumTable. cbn [Z.eqb Pos.eqb].
  rewrite GetBpskBer_null_snr by assumption.
  destruct (Req_dec_T (1 / 2) 0) as [E|_]; [lra|].
  destruct (GetCodeRate mode); cbn [freeDistance weight row];
    rewrite ?CalculatePd_half_10, ?CalculatePd_half_5; cbn [bind];
    f_equal; apply saturated; solve [lra | assumption].
Qed.

Lemma binary_chunk_at_null_snr_witness :
  @DoGetChunkSuccessRate Example.libm Example.env Example.OfdmRate6Mbps
    (Example.su 20 Example.OfdmRate6Mbps) 0 1 1 tt 65535
  = Some 0%R.
Proof.
  apply (@binary_chunk_at_null_snr Example.libm Example.env).
  - apply example_erfc_0.
  - cbn. lia.
  - reflexivity.
  - unfold DoGetChunkSuccessRate_phyRate. cbn -[Example.PhyRate].
    rewrite example_PhyRate. reflexivity.
  - lia.
Defined.

(** ** The pairwise error probability is a probability *)

Lemma Binomial_spec_nonneg (k : nat) (p : R) (n : nat) :
  (0 <= p <= 1)%R -> (0 <= Binomial_spec k p n)%R.
Proof.
  intros Hp. unfold Binomial_spec.
  repeat apply Rmult_le_pos.
  - apply pos_INR.
  - apply pow_le. lra.
  - apply pow_le. lra.
Qed.

Lemma BinomialSum_spec_nonneg (p : R) (n : nat) :
  (0 <= p <= 1)%R ->
  forall count i : nat, (0 <= BinomialSum_spec count p n i)%R.
Proof.
  intros Hp. induction count as [|count IH]; intros i; cbn [BinomialSum_spec].
  - lra.
  - pose proof (Binomial_spec_nonneg i p n Hp). specialize (IH (S i)). lra.
Qed.

Lemma BinomialSum_spec_app (p : R) (n : nat) :
  forall a b i : nat,
    BinomialSum_spec (a + b) p n i
    = (BinomialSum_spec a p n i + BinomialSum_spec b p n (i + a))%R.
Proof.
  induction a as [|a IH]; intros b i; cbn [BinomialSum_spec Nat.add].
  - rewrite Nat.add_0_r. lra.
  - rewrite IH. replace (S i + a)%nat with (i + S a)%nat by lia. lra.
Qed.

(** The binomial theorem at [p + (1 - p) = 1], for the distances that the
    32-bit factorials reach. *)
Lemma BinomialSum_spec_all (p : R) (n : nat) :
  (n <= 12)%nat -> BinomialSum_spec (S n) p n 0 = 1%R.
Proof.
  intros Hn.
  do 13 (destruct n as [|n];
         [ unfold BinomialSum_spec, Binomial_spec;
           rewrite !INR_IZR_INZ;
           cbv -[Rplus Rmult Rminus IZR]; ring | ]).
  lia.
Qed.

Lemma BinomialSum_is_spec (ber : R) (d : Z) :
  0 <= d <= 12 ->
  forall count i : nat,
    ((0 < count)%nat -> Z.of_nat i + Z.of_nat count <= d) ->
    BinomialSum count ber d (Z.of_nat i)
    = Some (BinomialSum_spec count ber (Z.to_nat d) i).
Proof.
  intros Hd. induction count as [|count IH]; intros i Hend.
  - reflexivity.
  - specialize (Hend ltac:(lia)).
    cbn [BinomialSum BinomialSum_spec].
    rewrite Binomial_exact by lia. rewrite bind_Some.
    replace (Z.of_nat i + 1) with (Z.of_nat (S i)) by lia.
    rewrite IH by lia. cbn [bind].
    now rewrite Nat2Z.id.
Qed.

(** X12: for a raw bit error rate in [[0,1]] and a distance of at most
    [12], [CalculatePd] returns a probability: a part of the binomial
    distribution, whose terms sum to [1]. *)
Theorem CalculatePd_probability (ber : R) (d : Z) :
  (0 <= ber <= 1)%R -> 0 <= d <= 12 ->
  exists pd : R, CalculatePd ber d = Some pd /\ (0 <= pd <= 1)%R.
Proof.
  intros Hber Hd.
  rewrite CalculatePd_refines by (unwrap; lia).
  unfold CalculatePd_spec.
  pose proof (BinomialSum_spec_all ber (Z.to_nat d) ltac:(lia)) as Hall.
  pose proof (BinomialSum_spec_nonneg ber (Z.to_nat d) Hber) as Hpos.
  destruct (Z.odd d) eqn:Hodd.
  - (* odd: the terms from (d+1)/2 to d-1 *)
    assert (Hd1 : d mod 2 = 1) by (rewrite Zmod_odd, Hodd; reflexivity).
    set (a := Z.to_nat ((d + 1) / 2)).
    set (c := Z.to_nat (d - (d + 1) / 2)).
    replace ((d + 1) / 2) with (Z.of_nat a) by (unfold a; lia).
    rewrite BinomialSum_is_spec by (unfold a, c; lia).
    eexists. split; [reflexivity|].
    replace (S (Z.to_nat d)) with (a + (c + 1))%nat in Hall
      by (unfold a, c; lia).
    rewrite !BinomialSum_spec_app in Hall.
    pose proof (Hpos a 0%nat). pose proof (Hpos c a).
    pose proof (Hpos 1%nat (0 + a + c)%nat).
    replace (0 + a)%nat with a in * by lia.
    lra.
  - (* even: the terms from d/2+1 to d-1 and half of the term d/2 *)
    assert (Hd0 : d mod 2 = 0) by (rewrite Zmod_odd, Hodd; reflexivity).
    set (h := Z.to_nat (d / 2)).
    set (c := Z.to_nat (d - (d / 2 + 1))).
    replace (d / 2 + 1) with (Z.of_nat (S h)) by (unfold h; lia).
    rewrite BinomialSum_is_spec by (unfold h, c; lia).
    rewrite bind_Some, Binomial_exact by lia. rewrite bind_Some.
    fold h.
    eexists. split; [reflexivity|].
    pose proof (Binomial_spec_nonneg h ber (Z.to_nat d) Hber) as Hh.
    destruct (Z.eq_dec d 0) as [Hz|Hnz].
    + (* d = 0: only the half term *)
      replace c with 0%nat in * by (unfold c; lia).
      replace h with 0%nat in * by (unfold h; rewrite Hz; reflexivity).
      replace (Z.to_nat d) with 0%nat in * by lia.
      cbn [BinomialSum_spec] in Hall |- *. lra.
    + replace (S (Z.to_nat d)) with (h + (1 + (c + 1)))%nat in Hall
        by (unfold h, c; lia).
      rewrite !BinomialSum_spec_app in Hall.
      cbn [BinomialSum_spec] in Hall.
      pose proof (Hpos h 0%nat). pose proof (Hpos c (S h)).
      pose proof (Binomial_spec_nonneg (0 + h + 1 + c) ber (Z.to_nat d) Hber).
      replace (0 + h)%nat with h in * by lia.
      replace (h + 1)%nat with (S h) in * by lia.
      lra.
Qed.

Lemma CalculatePd_probability_witness :
  exists pd : R, CalculatePd (1 / 100) 11 = Some pd /\ (0 <= pd <= 1)%R.
Proof. apply CalculatePd_probability; [lra|lia]. Defined.

(** X13: for a distance of at most [12], [CalculatePd] is the sum of the
    terms [C(d,i) * ber^i * (1-ber)^(d-i)] with the binomial coefficients
    themselves: for an odd [d] over [i] from [(d+1)/2] to [d-1], for an even
    [d] over [i] from [d/2+1] to [d-1] plus half of the term [d/2]. *)
Theorem CalculatePd_closed_form (ber : R) (d : Z) :
  0 <= d <= 12 ->
  CalculatePd ber d
  = Some (if Z.odd d then
            BinomialSum_spec (Z.to_nat (d - (d + 1) / 2)) ber (Z.to_nat d)
              (Z.to_nat ((d + 1) / 2))
          else
            BinomialSum_spec (Z.to_nat (d - (d / 2 + 1))) ber (Z.to_nat d)
              (Z.to_nat (d / 2 + 1))
            + 0.5 * Binomial_spec (Z.to_nat (d / 2)) ber (Z.to_nat d))%R.
Proof.
  intros Hd.
  rewrite CalculatePd_refines by (unwrap; lia).
  unfold CalculatePd_spec. destruct (Z.odd d).
  - rewrite <- (Z2Nat.id ((d + 1) / 2)) at 2 by lia.
    now rewrite BinomialSum_is_spec by lia.
  - rewrite <- (Z2Nat.id (d / 2 + 1)) at 2 by lia.
    rewrite BinomialSum_is_spec by lia.
    now rewrite bind_Some, Binomial_exact by lia.
Qed.

Lemma CalculatePd_closed_form_witness :
  CalculatePd (1 / 100) 10
  = Some (if Z.odd 10 then
            BinomialSum_spec (Z.to_nat (10 - (10 + 1) / 2)) (1 / 100)
              (Z.to_nat 10) (Z.to_nat ((10 + 1) / 2))
          else
            BinomialSum_spec (Z.to_nat (10 - (10 / 2 + 1))) (1 / 100)
              (Z.to_nat 10) (Z.to_nat (10 / 2 + 1))
            + 0.5 * Binomial_spec (Z.to_nat (10 / 2)) (1 / 100)
                      (Z.to_nat 10))%R.
Proof. apply CalculatePd_closed_form. lia. Defined.

Lemma Binomial_spec_at_0 (k n : nat) :
  (0 < k)%nat -> Binomial_spec k 0 n = 0%R.
Proof.
  intros Hk. unfold Binomial_spec. rewrite pow_i by assumption. ring.
Qed.

Lemma Binomial_spec_at_1 (k n : nat) :
  (k < n)%nat -> Binomial_spec k 1 n = 0%R.
Proof.
  intros Hk. unfold Binomial_spec.
  replace (1 - 1)%R with 0%R by ring.
  rewrite (pow_i (n - k)) by lia. ring.
Qed.

Lemma BinomialSum_spec_at_0 (n : nat) :
  forall count i : nat,
    (0 < i)%nat -> BinomialSum_spec count 0 n i = 0%R.
Proof.
  induction count as [|count IH]; intros i Hi; cbn [BinomialSum_spec].
  - reflexivity.
  - rewrite Binomial_spec_at_0, IH by lia. ring.
Qed.

Lemma BinomialSum_spec_at_1 (n : nat) :
  forall count i : nat,
    (i + count <= n)%nat -> BinomialSum_spec count 1 n i = 0%R.
Proof.
  induction count as [|count IH]; intros i Hi; cbn [BinomialSum_spec].
  - reflexivity.
  - rewrite Binomial_spec_at_1, IH by lia. ring.
Qed.

(** X14: for a distance from [1] to [12] the pairwise error probability is
    [0] at a bit error rate of [0] and also at a bit error rate of [1]: the
    sums stop at [d - 1], the term of [d] errors out of [d] is never
    added. *)
Theorem CalculatePd_ends (d : Z) :
  1 <= d <= 12 ->
  CalculatePd 0 d = Some 0%R /\ CalculatePd 1 d = Some 0%R.
Proof.
  intros Hd.
  rewrite !CalculatePd_refines by (unwrap; lia).
  unfold CalculatePd_spec. destruct (Z.odd d) eqn:Hodd.
  - rewrite <- (Z2Nat.id ((d + 1) / 2)) at 2 4 by lia.
    rewrite !BinomialSum_is_spec by lia.
    rewrite BinomialSum_spec_at_0, BinomialSum_spec_at_1 by lia.
    split; reflexivity.
  - assert (Hd0 : d mod 2 = 0) by (rewrite Zmod_odd, Hodd; reflexivity).
    rewrite <- (Z2Nat.id (d / 2 + 1)) at 2 4 by lia.
    rewrite !BinomialSum_is_spec by lia.
    rewrite !bind_Some, !Binomial_exact by lia.
    rewrite BinomialSum_spec_at_0, BinomialSum_spec_at_1 by lia.
    rewrite Binomial_spec_at_0, Binomial_spec_at_1 by lia.
    cbn [bind]. split; f_equal; lra.
Qed.

Lemma CalculatePd_ends_witness :
  CalculatePd 0 11 = Some 0%R /\ CalculatePd 1 11 = Some 0%R.
Proof. apply CalculatePd_ends. lia. Defined.
